(** * duburl: the metatags edge endpoint

    A shallow embedding of [src/pages/api/edge/metatags.ts]: the request
    handler, the tag extractor that walks the parsed document, the
    precedence chains for title, description and image, the image URL
    resolver, and the usage-recording side effect.

    JavaScript values are an inductive type, the tag map [obj] and the
    attribute bags are finite maps keyed by strings, and the asynchronous
    calls the handler makes (token check, rate limiter, fetch, recording)
    are events of a small trace-and-exception monad. *)

From Stdlib Require Import String Ascii List Bool Arith Lia.
From stdpp Require Import base gmap strings list.

Local Open Scope string_scope.
Local Open Scope list_scope.
Set Warnings "-register-all".

(** ** JavaScript values *)

Module JS.

(** The values that flow through the endpoint: [undefined] (an absent
    property), [null] (a missing query parameter, the resolver's "no
    image") and strings. *)
Inductive jsval : Type :=
| JUndefined
| JNull
| JStr (s : string).

Definition jsval_eqb (a b : jsval) : bool :=
  match a, b with
  | JUndefined, JUndefined => true
  | JNull, JNull => true
  | JStr s, JStr t => String.eqb s t
  | _, _ => false
  end.

(** ToBoolean: [undefined], [null] and the empty string are falsy. *)
Definition truthy (v : jsval) : bool :=
  match v with
  | JStr s => negb (String.eqb s "")
  | _ => false
  end.

(** [a || b] and [a && b]. *)
Definition js_or (a b : jsval) : jsval := if truthy a then a else b.
Definition js_and (a b : jsval) : jsval := if truthy a then b else a.

(** [typeof v === "string"]. *)
Definition is_string (v : jsval) : bool :=
  match v with JStr _ => true | _ => false end.

(** Neither [undefined] nor [null]. *)
Definition defined (v : jsval) : bool :=
  match v with JUndefined | JNull => false | JStr _ => true end.

(** ToString, as applied to a property key or a URL argument. *)
Definition to_string (v : jsval) : string :=
  match v with
  | JUndefined => "undefined"
  | JNull => "null"
  | JStr s => s
  end.

(** Property read on a plain object whose own properties are [o]. None
    of the keys the endpoint reads is inherited from [Object.prototype],
    so a key that is not an own property reads as [undefined]. *)
Definition get (o : gmap string string) (k : string) : jsval :=
  match o !! k with
  | Some s => JStr s
  | None => JUndefined
  end.

(** [o[k] = v] on an object literal [{}] for a string [v]. The key is
    coerced with ToString. The one inherited setter, [__proto__], ignores
    a value that is neither an object nor [null], so that assignment
    stores nothing. *)
Definition set (k : jsval) (v : string) (o : gmap string string)
  : gmap string string :=
  if String.eqb (to_string k) "__proto__" then o
  else <[to_string k := v]> o.

End JS.

Export JS.

Declare Scope js_scope.
Delimit Scope js_scope with js.
Infix "|||" := js_or (at level 50, left associativity) : js_scope.
Infix "&&&" := js_and (at level 40, left associativity) : js_scope.
Local Open Scope js_scope.

(** ** The parsed document *)

(** The nodes of the parser's tree. Text, comment and doctype nodes carry
    a [value]; documents and elements carry [children]. *)
Inductive node : Type :=
| Document (children : list node)
| Element (name : string) (attributes : gmap string string)
    (children : list node)
| Text (value : string)
| Comment (value : string)
| Doctype (value : string).

Definition node_children (n : node) : list node :=
  match n with
  | Document c => c
  | Element _ _ c => c
  | _ => []
  end.

(** [n.value]. *)
Definition node_value (n : node) : jsval :=
  match n with
  | Text v | Comment v | Doctype v => JStr v
  | _ => JUndefined
  end.

(** [t] occurs in the tree rooted at [n]. *)
Inductive subnode (t : node) : node -> Prop :=
| subnode_here : subnode t t
| subnode_child n c :
    In c (node_children n) -> subnode t c -> subnode t n.

(** Document order, depth first, the order the specification gives for
    the traversal: a node, then the traversals of its children from left
    to right. *)
Fixpoint preorder (n : node) : list node :=
  n :: match n with
       | Document cs | Element _ _ cs =>
           (fix go (l : list node) : list node :=
              match l with
              | [] => []
              | c :: l' => preorder c ++ go l'
              end) cs
       | _ => []
       end.

(** ** Exceptions, events and the handler monad *)

Inductive exn : Type :=
| TypeError
| Rejected (reason : string).

(** What the outside world sees of one request, in order. *)
Inductive event : Type :=
| EvGetToken
| EvLimit (bucket : string)
| EvFetch (url : string) (userAgent : string)
| EvRecord (url : string) (missing : bool).

Definition is_record (e : event) : bool :=
  match e with EvRecord _ _ => true | _ => false end.

Definition is_fetch (e : event) : bool :=
  match e with EvFetch _ _ => true | _ => false end.

Definition is_limit (e : event) : bool :=
  match e with EvLimit _ => true | _ => false end.

Definition result (A : Type) : Type := exn + A.

(** A computation leaves a trace of events and either throws or
    returns. *)
Definition M (A : Type) : Type := list event * result A.

Definition ret {A} (a : A) : M A := ([], inr a).

Definition emit (e : event) : M unit := ([e], inr tt).

Definition lift {A} (r : result A) : M A := ([], r).

Definition bind {A B} (m : M A) (k : A -> M B) : M B :=
  match m with
  | (t, inl e) => (t, inl e)
  | (t, inr a) => let (t', r) := k a in (t ++ t', r)
  end.

Notation "'let*' x ':=' m 'in' k" := (bind m (fun x => k))
  (at level 10, x name, m at level 100, k at level 200).
Notation "'do*' m 'in' k" := (bind m (fun _ => k))
  (at level 10, m at level 100, k at level 200).

Definition trace {A} (m : M A) : list event := fst m.

(** ** What the endpoint imports *)

Record URL : Type := mkURL {
  protocol : string;
  host : string;
  href : string
}.

Record JWT : Type := mkJWT { email : jsval }.

Record Request : Type := mkRequest {
  req_method : string;
  req_query : list (string * string);
  req_cookie : string
}.

(** [new Response(body, { status, headers })]: [headers] holds the headers
    handed to the constructor, not those the runtime adds on its own. *)
Record Response : Type := mkResponse {
  body : string;
  status : nat;
  headers : list (string * string)
}.

(** The libraries, the platform and the helpers of [@/lib] that the file
    calls and that are not part of it. Every theorem below holds for any
    choice of them. *)
Class Platform : Type := {
  (** [he.decode] on a string. *)
  he_decode : string -> string;
  (** [isValidUrl] of [@/lib/utils]. *)
  isValidUrl : jsval -> bool;
  (** [getDomainWithoutWWW] of [@/lib/utils]. *)
  getDomainWithoutWWW : string -> jsval;
  (** [new URL(u)]; [None] when the constructor throws. *)
  URL_new : string -> option URL;
  (** [new URL(u, base)]; [None] when the constructor throws. *)
  URL_new_base : string -> string -> option URL;
  (** [getToken({ req, secret })]. *)
  getToken : Request -> option JWT;
  (** The [success] field of [ratelimit.limit(bucket)]. *)
  ratelimit_limit : string -> bool;
  (** The body text of [fetch(url, ...)]. *)
  fetch_text : string -> result string;
  (** [transform(html, [sanitize({ blockElements: ["script"] })])]. *)
  sanitize_scripts : string -> string;
  (** [parse]. *)
  parse : string -> node;
  (** The order in which [walk] hands the nodes of a tree to its
      callback. *)
  walk_order : node -> list node
}.

(** [walk] leaves no node out: the traversal is a full one, whatever its
    order. *)
Definition walk_complete `{Platform} : Prop :=
  forall t ast, subnode t ast -> In t (walk_order ast).

(** Modelled from the spec: [isValidUrl] is defined in [@/lib/utils],
    which is not among the sources. The URL validator of the
    specification fails unless the string is present, so a missing
    parameter, which [searchParams.get] reports as [null], is
    rejected. *)
Definition rejects_missing `{Platform} : Prop := isValidUrl JNull = false.

(** ** The source, function by function *)

Section Endpoint.

Context `{Platform}.

(** [escapeEntities]: [he.decode] calls a string method on its argument,
    so an argument that is not a string throws. *)
Definition escapeEntities (v : jsval) : result string :=
  match v with
  | JStr s => inr (he_decode s)
  | _ => inl TypeError
  end.

(** [getRelativeUrl]. *)
Definition getRelativeUrl (url : string) (imageUrl : jsval) : result jsval :=
  if negb (truthy imageUrl) then inr JNull
  else if isValidUrl imageUrl then inr imageUrl
  else
    match URL_new url with
    | None => inl TypeError
    | Some u =>
        let baseURL := protocol u +:+ "//" +:+ host u in
        match URL_new_base (to_string imageUrl) baseURL with
        | None => inl TypeError
        | Some r => inr (JStr (href r))
        end
    end.

(** [getHtml]: one request with the bot's user agent; a timeout or a
    network failure is the rejection [fetch_text] reports. *)
Definition getHtml (url : string) : M string :=
  do* emit (EvFetch url "dub-bot/1.0") in
  lift (fetch_text url).

Definition specialHostnames : list string := ["developer.mozilla.org"].

Definition specialHostnames_has (v : jsval) : bool :=
  match v with
  | JStr s => existsb (String.eqb s) specialHostnames
  | _ => false
  end.

(** [getAst]. *)
Definition getAst (url : string) : M node :=
  let* html := getHtml url in
  ret (parse (if specialHostnames_has (getDomainWithoutWWW url)
              then sanitize_scripts html
              else html)).

(** [attributes.k]. *)
Definition attr (attributes : gmap string string) (k : string) : jsval :=
  JS.get attributes k.

(** The [property] and [content] of an element, as the callback computes
    them. *)
Definition node_property (attributes : gmap string string) : jsval :=
  attr attributes "name" ||| attr attributes "property"
    ||| attr attributes "itemprop" ||| attr attributes "rel".

Definition node_content (attributes : gmap string string) : jsval :=
  attr attributes "content" ||| attr attributes "href".

(** The callback handed to [walk], with the captured [obj] passed in and
    out. *)
Definition visitor (n : node) (obj : gmap string string)
  : result (gmap string string) :=
  match n with
  | Element name attributes children =>
      let property := node_property attributes in
      let content := node_content attributes in
      if String.eqb name "title" then
        match children with
        | [] => inl TypeError
        | c :: _ =>
            match escapeEntities (node_value c) with
            | inl e => inl e
            | inr t => inr (JS.set (JStr "title") t obj)
            end
        end
      else if negb (is_string content) then inr obj
      else
        match escapeEntities content with
        | inl e => inl e
        | inr v => inr (JS.set property v obj)
        end
  | _ => inr obj
  end.

(** The callback applied to a sequence of nodes; the first exception
    ends the walk. *)
Fixpoint visit_all (ns : list node) (obj : gmap string string)
  : result (gmap string string) :=
  match ns with
  | [] => inr obj
  | n :: ns' =>
      match visitor n obj with
      | inl e => inl e
      | inr obj' => visit_all ns' obj'
      end
  end.

(** [walk(ast, callback)] on the empty [obj]. *)
Definition walk (ast : node) : result (gmap string string) :=
  visit_all (walk_order ast) ∅.

(** The three precedence chains. *)
Definition title_of (obj : gmap string string) : jsval :=
  JS.get obj "og:title" ||| JS.get obj "twitter:title" ||| JS.get obj "title".

Definition description_of (obj : gmap string string) : jsval :=
  JS.get obj "description" ||| JS.get obj "og:description"
    ||| JS.get obj "twitter:description".

Definition image_of (obj : gmap string string) : jsval :=
  JS.get obj "og:image" ||| JS.get obj "twitter:image"
    ||| JS.get obj "image_src" ||| JS.get obj "icon"
    ||| JS.get obj "shortcut icon".

(** [title && description && image ? false : true]. *)
Definition missing_flag (title description image : jsval) : bool :=
  if truthy (title &&& description &&& image) then false else true.

Record MetaTags : Type := mkMetaTags {
  title : jsval;
  description : jsval;
  image : jsval
}.

(** [getMetaTags]. [ev.waitUntil(recordMetatags(...))] starts the
    recording call and hands its promise to the runtime. *)
Definition getMetaTags (url : string) : M MetaTags :=
  let* ast := getAst url in
  let* obj := lift (walk ast) in
  let title := title_of obj in
  let description := description_of obj in
  let image := image_of obj in
  do* emit (EvRecord url (missing_flag title description image)) in
  let* resolved := lift (getRelativeUrl url image) in
  ret (mkMetaTags title description resolved).

(** [JSON.stringify] on the returned object: a property whose value is
    [undefined] is left out, [null] prints as [null], a string is
    quoted. *)
Definition dquote : string := String (ascii_of_nat 34) EmptyString.

Definition hex_digit (n : nat) : string :=
  String.substring n 1 "0123456789abcdef".

Definition json_escape_char (c : ascii) : string :=
  let n := nat_of_ascii c in
  if Nat.eqb n 34 then "\" +:+ dquote
  else if Nat.eqb n 92 then "\\"
  else if Nat.eqb n 8 then "\b"
  else if Nat.eqb n 9 then "\t"
  else if Nat.eqb n 10 then "\n"
  else if Nat.eqb n 12 then "\f"
  else if Nat.eqb n 13 then "\r"
  else if Nat.ltb n 32 then "\u00" +:+ hex_digit (n / 16) +:+ hex_digit (n mod 16)
  else String c EmptyString.

Fixpoint json_escape (s : string) : string :=
  match s with
  | EmptyString => EmptyString
  | String c s' => json_escape_char c +:+ json_escape s'
  end.

Definition json_quote (s : string) : string :=
  dquote +:+ json_escape s +:+ dquote.

(** The members that are written, in property order. *)
Definition json_members (m : MetaTags) : list (string * jsval) :=
  List.filter (fun kv => negb (jsval_eqb (snd kv) JUndefined))
    [("title", title m); ("description", description m); ("image", image m)].

Definition json_value (v : jsval) : string :=
  match v with
  | JStr s => json_quote s
  | _ => "null"
  end.

Definition json_member (kv : string * jsval) : string :=
  json_quote (fst kv) +:+ ":" +:+ json_value (snd kv).

Definition JSON_stringify (m : MetaTags) : string :=
  "{" +:+ String.concat "," (map json_member (json_members m)) +:+ "}".

(** [req.nextUrl.searchParams.get(k)]: the first value of [k], or
    [null]. *)
Fixpoint searchParams_get (q : list (string * string)) (k : string) : jsval :=
  match q with
  | [] => JNull
  | (k', v) :: q' => if String.eqb k' k then JStr v else searchParams_get q' k
  end.

(** [session?.email]. *)
Definition session_email (session : option JWT) : jsval :=
  match session with
  | Some s => email s
  | None => JUndefined
  end.

(** [handler]. *)
Definition handler (req : Request) : M Response :=
  if String.eqb (req_method req) "GET" then
    let url := searchParams_get (req_query req) "url" in
    if negb (isValidUrl url) then
      ret (mkResponse "Invalid URL" 400 [])
    else
      let* session := (do* emit EvGetToken in ret (getToken req)) in
      let respond : M Response :=
        let* metatags := getMetaTags (to_string url) in
        ret (mkResponse (JSON_stringify metatags) 200
               [("Content-Type", "application/json")]) in
      if negb (truthy (session_email session)) then
        let* success :=
          (do* emit (EvLimit "metatags") in ret (ratelimit_limit "metatags")) in
        if negb success then
          ret (mkResponse "Don't DDoS me pls 🥺" 429 [])
        else respond
      else respond
  else
    ret (mkResponse ("Method " +:+ req_method req +:+ " Not Allowed") 405 []).

End Endpoint.

(** ** A concrete platform

    One choice of the imported functions, on which statements can be
    evaluated. Its URL functions cover a fragment of the URL standard:
    [http] and [https] URLs with a lower-case host, no credentials,
    no default port, no percent-encoding and no dot segments, and
    references that are a path starting with one slash. Its [he_decode]
    is the identity, which is what [he.decode] is on a string without
    an ampersand. *)

Module Demo.

Fixpoint span_until (p : ascii -> bool) (s : string) : string * string :=
  match s with
  | EmptyString => (EmptyString, EmptyString)
  | String c s' =>
      if p c then (EmptyString, s)
      else let (a, b) := span_until p s' in (String c a, b)
  end.

Fixpoint strip_prefix (p s : string) : option string :=
  match p, s with
  | EmptyString, _ => Some s
  | String a p', String b s' =>
      if Ascii.eqb a b then strip_prefix p' s' else None
  | _, EmptyString => None
  end.

Fixpoint string_exists (p : ascii -> bool) (s : string) : bool :=
  match s with
  | EmptyString => false
  | String c s' => p c || string_exists p s'
  end.

Definition ends_authority (c : ascii) : bool :=
  Ascii.eqb c "/" || Ascii.eqb c "?" || Ascii.eqb c "#".

(** Bytes that make a host invalid or that lie outside the fragment. *)
Definition bad_host_char (c : ascii) : bool :=
  let n := nat_of_ascii c in
  Nat.leb n 32 || Ascii.eqb c "@" || Ascii.eqb c "<" || Ascii.eqb c ">"
  || Ascii.eqb c "\" || Ascii.eqb c "^" || Ascii.eqb c "|" || Ascii.eqb c "%"
  || Ascii.eqb c "[" || Ascii.eqb c "]".

Definition parse_after (scheme rest : string) : option URL :=
  let (h, p) := span_until ends_authority rest in
  if String.eqb h "" || string_exists bad_host_char h then None
  else
    let path :=
      match p with
      | String "/" _ => p
      | _ => "/" +:+ p
      end in
    Some (mkURL scheme h (scheme +:+ "//" +:+ h +:+ path)).

Definition parse_url (s : string) : option URL :=
  match strip_prefix "https://" s with
  | Some rest => parse_after "https:" rest
  | None =>
      match strip_prefix "http://" s with
      | Some rest => parse_after "http:" rest
      | None => None
      end
  end.

Definition resolve (ref base : string) : option URL :=
  match parse_url ref with
  | Some u => Some u
  | None =>
      match parse_url base, ref with
      | Some b, String "/" (String "/" _) => None
      | Some b, String "/" _ =>
          Some (mkURL (protocol b) (host b)
                  (protocol b +:+ "//" +:+ host b +:+ ref))
      | _, _ => None
      end
  end.

Definition valid (v : jsval) : bool :=
  match parse_url (to_string v) with
  | Some _ => true
  | None => false
  end.

Definition domain (u : string) : jsval :=
  match parse_url u with
  | Some x =>
      match strip_prefix "www." (host x) with
      | Some h => JStr h
      | None => JStr (host x)
      end
  | None => JNull
  end.

(** The world in which the caller's session is [session], the limiter
    answers [quota], and every page parses to [page], walked in document
    order. *)
Definition platform (session : option JWT) (quota : bool) (page : node)
  : Platform := {|
  he_decode := fun s => s;
  isValidUrl := valid;
  getDomainWithoutWWW := domain;
  URL_new := parse_url;
  URL_new_base := resolve;
  getToken := fun _ => session;
  ratelimit_limit := fun _ => quota;
  fetch_text := fun _ => inr "";
  sanitize_scripts := fun html => html;
  parse := fun _ => page;
  walk_order := preorder
|}.

End Demo.

(** ** Chains of [||] *)

(** What [v1 || v2 || ... || vn] yields: the first truthy value, and the
    last value when none is truthy. *)
Fixpoint first_truthy (vs : list jsval) : jsval :=
  match vs with
  | [] => JUndefined
  | v :: vs' =>
      match vs' with
      | [] => v
      | _ => if truthy v then v else first_truthy vs'
      end
  end.

(** The chain as the specification words it, with [??]: the first value
    that is neither [undefined] nor [null]. *)
Fixpoint first_defined (vs : list jsval) : jsval :=
  match vs with
  | [] => JUndefined
  | v :: vs' => if defined v then v else first_defined vs'
  end.

Definition title_keys : list string :=
  ["og:title"; "twitter:title"; "title"].

Definition description_keys : list string :=
  ["description"; "og:description"; "twitter:description"].

Definition image_keys : list string :=
  ["og:image"; "twitter:image"; "image_src"; "icon"; "shortcut icon"].

Definition property_attrs : list string :=
  ["name"; "property"; "itemprop"; "rel"].

Definition content_attrs : list string := ["content"; "href"].

Definition falsy_at (o : gmap string string) (k : string) : Prop :=
  truthy (JS.get o k) = false.

(** [field] reads [keys] with the precedence of [||]. *)
Definition takes_first_truthy
  (field : gmap string string -> jsval) (keys : list string) : Prop :=
  forall o : gmap string string,
    (forall pre k post,
        keys = pre ++ k :: post ->
        Forall (falsy_at o) pre ->
        truthy (JS.get o k) = true ->
        field o = JS.get o k)
    /\ (Forall (falsy_at o) keys -> field o = JS.get o (List.last keys ""))
    /\ ((forall k, In k (List.removelast keys) -> JS.get o k <> JStr "") ->
        field o = first_defined (map (JS.get o) keys)).


(** ** Sample pages and requests *)

Module Pages.

Definition meta (attributes : gmap string string) : node :=
  Element "meta" attributes [].

Definition link (attributes : gmap string string) : node :=
  Element "link" attributes [].

Definition html (head : list node) : node :=
  Document [Doctype "html";
            Element "html" ∅ [Element "head" ∅ head;
                              Element "body" ∅ [Text "Hello"]]].

(** [<link rel="image_src" href=""><link rel="icon" href="/favicon.ico">] *)
Definition empty_image_src : node :=
  html [link {[ "rel" := "image_src"; "href" := "" ]};
        link {[ "rel" := "icon"; "href" := "/favicon.ico" ]}].


(** [<meta name="" property="og:title" content="Hello">] *)
Definition empty_name : node :=
  meta {[ "name" := ""; "property" := "og:title"; "content" := "Hello" ]}.

(** [<meta content="" href="/x">]: an empty [content] next to an [href]. *)
Definition empty_content : node :=
  meta {[ "name" := "og:image"; "content" := ""; "href" := "/x" ]}.

(** A page whose title is the empty string:
    [<a name="title" href=""></a>], a description and an image. *)
Definition empty_title : node :=
  html [Element "a" {[ "name" := "title"; "href" := "" ]} [];
        meta {[ "name" := "description"; "content" := "A page" ]};
        meta {[ "property" := "og:image";
                "content" := "https://example.com/i.png" ]}].

(** A page with every field: [<title>Home</title>], a description and a
    relative icon. *)
Definition complete : node :=
  html [Element "title" ∅ [Text "Home"];
        meta {[ "name" := "description"; "content" := "A page" ]};
        link {[ "rel" := "icon"; "href" := "/favicon.png" ]}].

(** A page with no metadata at all. *)
Definition bare : node := html [].

(** [<title/>]: a title element without a child. *)
Definition childless_title : node := html [Element "title" ∅ []].

(** [<title><b>Home</b></title>] *)
Definition markup_title : node :=
  Element "title" ∅ [Element "b" ∅ [Text "Home"]].

(** [<meta property="og:image" content="https://">]: an image reference
    that is no URL and that does not resolve either. *)
Definition broken_image : node :=
  html [Element "title" ∅ [Text "Home"];
        meta {[ "property" := "og:image"; "content" := "https://" ]}].

Definition page_url : string := "https://example.com/foo/bar".

Definition get_request : Request :=
  mkRequest "GET" [("url", page_url)] "".

Definition post_request : Request :=
  mkRequest "POST" [("url", page_url)] "".

Definition no_url_request : Request := mkRequest "GET" [] "".

Definition bad_url_request : Request :=
  mkRequest "GET" [("url", "not a url")] "".

Definition session : option JWT := Some (mkJWT (JStr "user@example.com")).

End Pages.

(** ** Vocabulary of the statements *)

Section Vocabulary.

Context `{Platform}.

(** The tree [getAst] parses from the text [html] fetched at [url]. *)
Definition parsed (url html : string) : node :=
  parse (if specialHostnames_has (getDomainWithoutWWW url)
         then sanitize_scripts html
         else html).

(** The caller is signed in: [session?.email] is truthy. *)
Definition signed_in (req : Request) : bool :=
  truthy (session_email (getToken req)).

(** The events of the access gate for a request that reaches it. *)
Definition gate_events (req : Request) : list event :=
  EvGetToken :: if signed_in req then [] else [EvLimit "metatags"].

(** The access gate lets the request through. *)
Definition gate_open (req : Request) : bool :=
  signed_in req || ratelimit_limit "metatags".

(** The events of a completed extraction at [url]. *)
Definition extraction_events (url : string) (missing : bool) : list event :=
  [EvFetch url "dub-bot/1.0"; EvRecord url missing].

End Vocabulary.

(** The member [JSON.stringify] writes for a property. *)
Definition member (k : string) (v : jsval) : list (string * jsval) :=
  match v with
  | JUndefined => []
  | _ => [(k, v)]
  end.

(** A field is absent: [undefined] or [null]. *)
Definition absent (v : jsval) : bool := negb (defined v).

Definition ok_response (m : MetaTags) : Response :=
  mkResponse (JSON_stringify m) 200 [("Content-Type", "application/json")].

(** ** Vocabulary of the walk *)

Section WalkVocabulary.

Context `{Platform}.

(** The callback throws at [n]: a title element with no first child, or
    whose first child carries no string value. *)
Definition throws (n : node) : bool :=
  match n with
  | Element name _ children =>
      String.eqb name "title"
      && match children with
         | [] => true
         | c :: _ => negb (is_string (node_value c))
         end
  | _ => false
  end.

(** The binding the callback adds at [n], when it adds one. *)
Definition stores (n : node) : option (string * string) :=
  match n with
  | Element name attributes children =>
      if String.eqb name "title" then
        match children with
        | c :: _ =>
            match node_value c with
            | JStr t => Some ("title", he_decode t)
            | _ => None
            end
        | [] => None
        end
      else
        match node_content attributes with
        | JStr c =>
            if String.eqb (to_string (node_property attributes)) "__proto__"
            then None
            else Some (to_string (node_property attributes), he_decode c)
        | _ => None
        end
  | _ => None
  end.

(** [obj] with the binding of [n] added. *)
Definition stored (n : node) (obj : gmap string string) : gmap string string :=
  match stores n with
  | Some (k, v) => <[k := v]> obj
  | None => obj
  end.

(** The value that the last node of [ns] storing under [k] stores. *)
Fixpoint last_stored (k : string) (ns : list node) : option string :=
  match ns with
  | [] => None
  | n :: ns' =>
      match last_stored k ns' with
      | Some v => Some v
      | None =>
          match stores n with
          | Some (k', v) => if String.eqb k' k then Some v else None
          | None => None
          end
      end
  end.

(** The keys under which the nodes of [ns] store, in order. *)
Definition stored_keys (ns : list node) : list string :=
  map fst (omap stores ns).

(** The url a request is about, as [getMetaTags] receives it. *)
Definition request_url (req : Request) : string :=
  to_string (searchParams_get (req_query req) "url").

(** The platform with the network down: every fetch is rejected. *)
Definition offline : Platform := {|
  he_decode := he_decode;
  isValidUrl := isValidUrl;
  getDomainWithoutWWW := getDomainWithoutWWW;
  URL_new := URL_new;
  URL_new_base := URL_new_base;
  getToken := getToken;
  ratelimit_limit := ratelimit_limit;
  fetch_text := fun _ => inl (Rejected "fetch failed");
  sanitize_scripts := sanitize_scripts;
  parse := parse;
  walk_order := walk_order
|}.

(** A platform on which sanitizing shows: the page fetched holds a
    script, sanitizing removes it, and the parser keeps the text it is
    given as one text node. *)
Definition scripted : Platform := {|
  he_decode := he_decode;
  isValidUrl := isValidUrl;
  getDomainWithoutWWW := getDomainWithoutWWW;
  URL_new := URL_new;
  URL_new_base := URL_new_base;
  getToken := getToken;
  ratelimit_limit := ratelimit_limit;
  fetch_text := fun _ => inr "<script>track()</script><p>Hi</p>";
  sanitize_scripts := fun _ => "<p>Hi</p>";
  parse := fun html => Document [Text html];
  walk_order := walk_order
|}.

End WalkVocabulary.

(** * Properties *)

(** ** The concrete platform at work *)

Example demo_url : Demo.parse_url "https://example.com/foo/bar"
  = Some (mkURL "https:" "example.com" "https://example.com/foo/bar").
Proof. reflexivity. Qed.

Example demo_resolve : Demo.resolve "/favicon.png" "https://example.com"
  = Some (mkURL "https:" "example.com" "https://example.com/favicon.png").
Proof. reflexivity. Qed.

Example demo_obj :
  JS.get (JS.set (JStr "icon") "" (JS.set JUndefined "x" ∅)) "undefined" = JStr "x".
Proof. reflexivity. Qed.

(** ** Precedence of a chain *)

Lemma js_or_fold vs v : fold_left js_or vs v = first_truthy (v :: vs).
Proof.
  revert v. induction vs as [|w vs IH]; intros v; [reflexivity|].
  cbn [fold_left]. rewrite IH. unfold js_or.
  destruct (truthy v) eqn:Hv.
  - destruct vs as [|x vs]; cbn; rewrite Hv; reflexivity.
  - cbn. rewrite Hv. reflexivity.
Qed.

Lemma first_truthy_hit v vs : truthy v = true -> first_truthy (v :: vs) = v.
Proof. intros Hv. destruct vs; cbn; [|rewrite Hv]; reflexivity. Qed.

Lemma first_truthy_skip v vs :
  truthy v = false -> vs <> [] -> first_truthy (v :: vs) = first_truthy vs.
Proof. intros Hv Hne. destruct vs; [congruence|]. cbn. rewrite Hv. reflexivity. Qed.

Lemma first_truthy_found pre v post :
  Forall (fun w => truthy w = false) pre -> truthy v = true ->
  first_truthy (pre ++ v :: post) = v.
Proof.
  induction 1 as [|w pre Hw _ IH]; intros Hv; cbn [app].
  - apply first_truthy_hit, Hv.
  - rewrite first_truthy_skip; auto. destruct pre; discriminate.
Qed.

Lemma first_truthy_none vs :
  Forall (fun w => truthy w = false) vs ->
  first_truthy vs = List.last vs JUndefined.
Proof.
  induction 1 as [|w vs Hw _ IH]; [reflexivity|].
  destruct vs as [|x vs]; [reflexivity|].
  rewrite first_truthy_skip by (auto; discriminate). exact IH.
Qed.

Lemma get_cases (o : gmap string string) k :
  JS.get o k = JUndefined \/ exists s, JS.get o k = JStr s.
Proof. unfold JS.get. destruct (o !! k); eauto. Qed.

Lemma first_truthy_defined (o : gmap string string) keys :
  (forall k, In k (List.removelast keys) -> JS.get o k <> JStr "") ->
  first_truthy (map (JS.get o) keys) = first_defined (map (JS.get o) keys).
Proof.
  induction keys as [|k keys IH]; intros Hne; [reflexivity|].
  destruct keys as [|k' keys].
  - cbn. destruct (get_cases o k) as [-> | [s ->]]; reflexivity.
  - assert (Hk : JS.get o k <> JStr "") by (apply Hne; left; reflexivity).
    assert (IH' : first_truthy (map (JS.get o) (k' :: keys))
                  = first_defined (map (JS.get o) (k' :: keys))).
    { apply IH. intros k0 Hin. apply Hne. right. exact Hin. }
    change (map (JS.get o) (k :: k' :: keys))
      with (JS.get o k :: map (JS.get o) (k' :: keys)).
    cbn [first_defined].
    destruct (get_cases o k) as [E | [s E]]; rewrite E in *.
    + rewrite first_truthy_skip by (auto; discriminate). exact IH'.
    + rewrite first_truthy_hit; [reflexivity|].
      cbn. destruct s; [congruence | reflexivity].
Qed.

Lemma last_map_get (o : gmap string string) keys :
  keys <> [] ->
  List.last (map (JS.get o) keys) JUndefined = JS.get o (List.last keys "").
Proof.
  induction keys as [|k keys IH]; [congruence|]; intros _.
  destruct keys as [|k' keys]; [reflexivity|].
  change (List.last (map (JS.get o) (k' :: keys)) JUndefined
          = JS.get o (List.last (k' :: keys) "")).
  apply IH. discriminate.
Qed.

(** Any field that is the [||] chain over [keys] has the precedence of
    [||]. *)
Lemma chain_takes_first_truthy field keys :
  keys <> [] ->
  (forall o, field o = first_truthy (map (JS.get o) keys)) ->
  takes_first_truthy field keys.
Proof.
  intros Hne Hf o. rewrite Hf. repeat split.
  - intros pre k post -> Hpre Hk.
    rewrite map_app. cbn [map]. apply first_truthy_found; [|exact Hk].
    apply Forall_map. exact Hpre.
  - intros Hall. rewrite first_truthy_none.
    + apply last_map_get, Hne.
    + apply Forall_map. exact Hall.
  - apply first_truthy_defined.
Qed.






Section Chains.

Lemma title_of_chain o :
  title_of o = first_truthy (map (JS.get o) title_keys).
Proof. unfold title_of, title_keys. cbn [map]. rewrite <- js_or_fold. reflexivity. Qed.

Lemma description_of_chain o :
  description_of o = first_truthy (map (JS.get o) description_keys).
Proof. unfold description_of, description_keys. cbn [map]. rewrite <- js_or_fold. reflexivity. Qed.

Lemma image_of_chain o :
  image_of o = first_truthy (map (JS.get o) image_keys).
Proof. unfold image_of, image_keys. cbn [map]. rewrite <- js_or_fold. reflexivity. Qed.

Lemma node_property_chain a :
  node_property a = first_truthy (map (attr a) property_attrs).
Proof. unfold node_property, property_attrs. cbn [map]. rewrite <- js_or_fold. reflexivity. Qed.

Lemma node_content_chain a :
  node_content a = first_truthy (map (attr a) content_attrs).
Proof. unfold node_content, content_attrs. cbn [map]. rewrite <- js_or_fold. reflexivity. Qed.

End Chains.

(** ** The walk *)

Lemma preorder_children_in t c cs :
  In c cs -> In t (preorder c) ->
  In t ((fix go (l : list node) : list node :=
           match l with
           | [] => []
           | c :: l' => preorder c ++ go l'
           end) cs).
Proof.
  induction cs as [|d cs IH]; intros Hc Ht; [destruct Hc|].
  apply in_or_app. destruct Hc as [-> | Hc]; [left; exact Ht|].
  right. apply IH; assumption.
Qed.

(** Document order leaves no node out. *)
Lemma preorder_complete t n : subnode t n -> In t (preorder n).
Proof.
  induction 1 as [|n c Hc _ IH].
  - destruct t; left; reflexivity.
  - destruct n as [cs|nm a cs|v|v|v]; cbn in Hc; try destruct Hc;
      right; apply (preorder_children_in t c cs); assumption.
Qed.

Section Walk.

Context `{Platform}.

Lemma escapeEntities_error v e : escapeEntities v = inl e -> e = TypeError.
Proof. destruct v; cbn; congruence. Qed.

(** The callback throws nothing but a [TypeError]. *)
Lemma visitor_error n obj e : visitor n obj = inl e -> e = TypeError.
Proof.
  destruct n as [cs|nm a cs|v|v|v]; cbn; try congruence.
  destruct (String.eqb nm "title").
  - destruct cs as [|c cs]; [congruence|].
    destruct (escapeEntities (node_value c)) eqn:E; [|congruence].
    intros [= <-]. eapply escapeEntities_error, E.
  - destruct (negb (is_string (node_content a))); [congruence|].
    destruct (escapeEntities (node_content a)) eqn:E; [|congruence].
    intros [= <-]. eapply escapeEntities_error, E.
Qed.

Lemma visit_all_error ns obj e : visit_all ns obj = inl e -> e = TypeError.
Proof.
  revert obj. induction ns as [|n ns IH]; intros obj; cbn; [congruence|].
  destruct (visitor n obj) eqn:E.
  - intros [= <-]. eapply visitor_error, E.
  - apply IH.
Qed.

Lemma visit_all_app l1 l2 obj :
  visit_all (l1 ++ l2) obj =
  match visit_all l1 obj with
  | inl e => inl e
  | inr obj1 => visit_all l2 obj1
  end.
Proof.
  revert obj. induction l1 as [|n l1 IH]; intros obj; cbn; [reflexivity|].
  destruct (visitor n obj); [reflexivity | apply IH].
Qed.

(** A node at which the callback always throws makes every walk that
    reaches it fail. *)
Lemma visit_all_throws n ns :
  In n ns -> (forall obj, visitor n obj = inl TypeError) ->
  forall obj, visit_all ns obj = inl TypeError.
Proof.
  intros Hin Hn. induction ns as [|m ns IH]; intros obj; [destruct Hin|].
  cbn. destruct (visitor m obj) eqn:E.
  - f_equal. eapply visitor_error, E.
  - destruct Hin as [-> | Hin]; [rewrite Hn in E; discriminate|].
    apply IH, Hin.
Qed.

(** Nodes that leave the value under [k] alone leave it alone
    together. *)
Lemma visit_all_preserves k ns :
  Forall (fun m => forall o o', visitor m o = inr o' -> JS.get o' k = JS.get o k) ns ->
  forall obj obj', visit_all ns obj = inr obj' -> JS.get obj' k = JS.get obj k.
Proof.
  induction 1 as [|m ns Hm _ IH]; intros obj obj'; cbn.
  - intros [= <-]. reflexivity.
  - destruct (visitor m obj) eqn:E; [discriminate|].
    intros Hrest. rewrite (IH _ _ Hrest). eapply Hm, E.
Qed.

Lemma get_set_eq k v (obj : gmap string string) :
  to_string k <> "__proto__" -> JS.get (JS.set k v obj) (to_string k) = JStr v.
Proof.
  intros Hk. unfold JS.set, JS.get.
  destruct (String.eqb_spec (to_string k) "__proto__"); [contradiction|].
  rewrite lookup_insert_eq. reflexivity.
Qed.

Lemma get_set_ne k v (obj : gmap string string) k' :
  k' <> to_string k -> JS.get (JS.set k v obj) k' = JS.get obj k'.
Proof.
  intros Hk. unfold JS.set, JS.get.
  destruct (String.eqb (to_string k) "__proto__"); [reflexivity|].
  rewrite lookup_insert_ne by congruence. reflexivity.
Qed.

Lemma set_proto k v (obj : gmap string string) :
  to_string k = "__proto__" -> JS.set k v obj = obj.
Proof. intros Hk. unfold JS.set. rewrite Hk. reflexivity. Qed.

End Walk.

(** ** The final fields *)


(** C1, as amended. For every tag map, each final field has the
    precedence of [||] over its keys, in the order of the source: title
    over og:title, twitter:title, title; description over description,
    og:description, twitter:description; the raw image over og:image,
    twitter:image, image_src, icon, shortcut icon. The field is the value
    of the first key bound to a non-empty string; when no key is, it is
    the value of the last key (undefined or the empty string); and when
    no key but the last is bound to the empty string, it is the first
    defined value, as the specification has it. *)
Theorem fields_take_first_truthy :
  takes_first_truthy title_of title_keys
  /\ takes_first_truthy description_of description_keys
  /\ takes_first_truthy image_of image_keys.
Proof.
  split; [|split].
  - apply chain_takes_first_truthy; [discriminate | apply title_of_chain].
  - apply chain_takes_first_truthy; [discriminate | apply description_of_chain].
  - apply chain_takes_first_truthy; [discriminate | apply image_of_chain].
Qed.

Lemma fields_take_first_truthy_witness :
  image_of {[ "image_src" := ""; "icon" := "/favicon.ico" ]}
  = JS.get {[ "image_src" := ""; "icon" := "/favicon.ico" ]} "icon".
Proof.
  destruct fields_take_first_truthy as (_ & _ & Himage).
  destruct (Himage {[ "image_src" := ""; "icon" := "/favicon.ico" ]})
    as (Hfound & _ & _).
  apply (Hfound ["og:image"; "twitter:image"; "image_src"] "icon"
           ["shortcut icon"]).
  - reflexivity.
  - repeat constructor.
  - reflexivity.
Defined.

(** C1 as stated fails: on the page with an empty [image_src] link and
    an [icon] link, the first defined value of the image chain is the
    empty string, and the raw image is the icon. *)
Lemma first_defined_counterexample :
  @walk (Demo.platform None true Pages.empty_image_src) Pages.empty_image_src
  = inr {[ "image_src" := ""; "icon" := "/favicon.ico" ]}
  /\ first_defined
       (map (JS.get {[ "image_src" := ""; "icon" := "/favicon.ico" ]}) image_keys)
     = JStr ""
  /\ image_of {[ "image_src" := ""; "icon" := "/favicon.ico" ]}
     = JStr "/favicon.ico".
Proof. repeat split; vm_compute; reflexivity. Qed.




(** ** The callback at one node *)

(** C3, as amended. The key of an element is the value of the first
    attribute among name, property, itemprop, rel that holds a non-empty
    string (the value of rel, or undefined, when none does), and its
    value is the first of content, href that holds a non-empty string
    (the value of href, or undefined, when none does). For every element
    that is not a title element: when that value is no string the node
    is skipped; otherwise the decoded value is assigned to the property
    named by the key, which leaves every other key alone and, unless the
    key is [__proto__], makes the value the one read under the key at the
    end of any walk in which no later node changes that key. *)
Theorem meta_node_stored `{Platform} :
  takes_first_truthy node_property property_attrs
  /\ takes_first_truthy node_content content_attrs
  /\ forall name attributes children,
       name <> "title" ->
       (is_string (node_content attributes) = false ->
        forall obj, visitor (Element name attributes children) obj = inr obj)
       /\ forall v,
            node_content attributes = JStr v ->
            (forall obj,
                visitor (Element name attributes children) obj
                = inr (JS.set (node_property attributes) (he_decode v) obj))
            /\ (forall obj k,
                   k <> to_string (node_property attributes) ->
                   JS.get (JS.set (node_property attributes) (he_decode v) obj) k
                   = JS.get obj k)
            /\ (to_string (node_property attributes) <> "__proto__" ->
                forall pre post obj obj',
                  visit_all (pre ++ Element name attributes children :: post) obj
                  = inr obj' ->
                  Forall (fun m => forall o o',
                              visitor m o = inr o' ->
                              JS.get o' (to_string (node_property attributes))
                              = JS.get o (to_string (node_property attributes)))
                    post ->
                  JS.get obj' (to_string (node_property attributes))
                  = JStr (he_decode v)).
Proof.
  split; [|split].
  - apply chain_takes_first_truthy; [discriminate | apply node_property_chain].
  - apply chain_takes_first_truthy; [discriminate | apply node_content_chain].
  - intros name attributes children Hname.
    assert (Hnt : String.eqb name "title" = false)
      by (apply String.eqb_neq; exact Hname).
    split.
    + intros Hskip obj. cbn. rewrite Hnt, Hskip. reflexivity.
    + intros v Hv.
      assert (Hstep : forall obj,
                 visitor (Element name attributes children) obj
                 = inr (JS.set (node_property attributes) (he_decode v) obj)).
      { intros obj. cbn. rewrite Hnt, Hv. reflexivity. }
      split; [exact Hstep|]. split.
      * intros obj k Hk. apply get_set_ne, Hk.
      * intros Hproto pre post obj obj' Hwalk Hpost.
        rewrite visit_all_app in Hwalk.
        destruct (visit_all pre obj) as [e|obj1]; [discriminate|].
        cbn [visit_all] in Hwalk. rewrite Hstep in Hwalk.
        rewrite (visit_all_preserves _ _ Hpost _ _ Hwalk).
        apply get_set_eq, Hproto.
Qed.

Lemma meta_node_stored_witness :
  @visit_all (Demo.platform None true Pages.bare)
    [Pages.meta {[ "property" := "og:title"; "content" := "Old" ]};
     Pages.empty_name;
     Pages.link {[ "rel" := "icon"; "href" := "/favicon.ico" ]}] ∅
  = inr {[ "og:title" := "Hello"; "icon" := "/favicon.ico" ]}
  /\ JS.get {[ "og:title" := "Hello"; "icon" := "/favicon.ico" ]} "og:title"
     = JStr "Hello".
Proof.
  split; [vm_compute; reflexivity|].
  destruct (@meta_node_stored (Demo.platform None true Pages.bare))
    as (_ & _ & Hnode).
  destruct (Hnode "meta"
              {[ "name" := ""; "property" := "og:title"; "content" := "Hello" ]}
              [] ltac:(discriminate)) as (_ & Hstore).
  destruct (Hstore "Hello" eq_refl) as (_ & _ & Hlast).
  apply (Hlast ltac:(vm_compute; discriminate)
           [Pages.meta {[ "property" := "og:title"; "content" := "Old" ]}]
           [Pages.link {[ "rel" := "icon"; "href" := "/favicon.ico" ]}] ∅).
  - vm_compute. reflexivity.
  - constructor; [|constructor].
    intros o o' Hv.
    change (@inr exn (gmap string string)
              (JS.set (JStr "icon") "/favicon.ico" o) = inr o') in Hv.
    injection Hv as <-. apply get_set_ne. vm_compute. discriminate.
Defined.

(** C3 as stated fails. On [<meta name="" property="og:title"
    content="Hello">] the first present key attribute is the empty
    [name], and the value is stored under og:title; on [<meta
    name="og:image" content="" href="/x">] the first present value
    attribute is the empty [content], and the value stored is that of
    [href]. *)
Lemma first_present_counterexample :
  first_defined
    (map (attr {[ "name" := ""; "property" := "og:title"; "content" := "Hello" ]})
       property_attrs) = JStr ""
  /\ @visitor (Demo.platform None true Pages.bare) Pages.empty_name ∅
     = inr {[ "og:title" := "Hello" ]}
  /\ first_defined
       (map (attr {[ "name" := "og:image"; "content" := ""; "href" := "/x" ]})
          content_attrs) = JStr ""
  /\ @visitor (Demo.platform None true Pages.bare) Pages.empty_content ∅
     = inr {[ "og:image" := "/x" ]}.
Proof. repeat split; vm_compute; reflexivity. Qed.

(** ** The request, step by step *)

Section Steps.

Context `{Platform}.

Lemma getAst_eq url :
  getAst url =
  match fetch_text url with
  | inl e => ([EvFetch url "dub-bot/1.0"], inl e)
  | inr html => ([EvFetch url "dub-bot/1.0"], inr (parsed url html))
  end.
Proof.
  unfold getAst, getHtml, parsed. cbn.
  destruct (fetch_text url); reflexivity.
Qed.

(** [getMetaTags] by cases on its three fallible steps. *)
Lemma getMetaTags_eq url :
  getMetaTags url =
  match fetch_text url with
  | inl e => ([EvFetch url "dub-bot/1.0"], inl e)
  | inr html =>
      match walk (parsed url html) with
      | inl e => ([EvFetch url "dub-bot/1.0"], inl e)
      | inr obj =>
          let missing :=
            missing_flag (title_of obj) (description_of obj) (image_of obj) in
          match getRelativeUrl url (image_of obj) with
          | inl e => (extraction_events url missing, inl e)
          | inr resolved =>
              (extraction_events url missing,
               inr (mkMetaTags (title_of obj) (description_of obj) resolved))
          end
      end
  end.
Proof.
  unfold getMetaTags. rewrite getAst_eq.
  destruct (fetch_text url) as [e|html]; [reflexivity|].
  cbn. destruct (walk (parsed url html)) as [e|obj]; [reflexivity|].
  cbn. destruct (getRelativeUrl url (image_of obj)); reflexivity.
Qed.

(** [handler] on a GET request with a valid url. *)
Lemma handler_eq req :
  req_method req = "GET" ->
  isValidUrl (searchParams_get (req_query req) "url") = true ->
  handler req =
  if gate_open req then
    match getMetaTags (to_string (searchParams_get (req_query req) "url")) with
    | (tr, inl e) => (gate_events req ++ tr, inl e)
    | (tr, inr m) => (gate_events req ++ tr, inr (ok_response m))
    end
  else
    (gate_events req, inr (mkResponse "Don't DDoS me pls 🥺" 429 [])).
Proof.
  intros Hget Hvalid. unfold handler, gate_open, gate_events, signed_in.
  rewrite Hget, Hvalid. cbn.
  destruct (getMetaTags (to_string (searchParams_get (req_query req) "url")))
    as [tr [e|m]] eqn:Hm;
    destruct (truthy (session_email (getToken req)));
    destruct (ratelimit_limit "metatags"); cbn; rewrite ?Hm; cbn;
    rewrite ?app_nil_r; reflexivity.
Qed.

(** An exception of [getMetaTags] leaves [handler] uncaught, which the
    runtime answers with a 500. *)
Lemma handler_throws req url tr e :
  req_method req = "GET" ->
  searchParams_get (req_query req) "url" = JStr url ->
  isValidUrl (JStr url) = true ->
  gate_open req = true ->
  getMetaTags url = (tr, inl e) ->
  handler req = (gate_events req ++ tr, inl e).
Proof.
  intros Hget Hurl Hvalid Hopen Hm.
  rewrite (handler_eq req Hget) by (rewrite Hurl; exact Hvalid).
  rewrite Hopen, Hurl. cbn [to_string]. rewrite Hm. reflexivity.
Qed.

Lemma getRelativeUrl_null url imageUrl resolved :
  getRelativeUrl url imageUrl = inr resolved ->
  (resolved = JNull <-> truthy imageUrl = false)
  /\ (resolved = JNull \/ exists s, resolved = JStr s).
Proof.
  unfold getRelativeUrl. destruct (truthy imageUrl) eqn:Ht; cbn.
  - destruct imageUrl as [| |s]; try discriminate.
    destruct (isValidUrl (JStr s)).
    + intros [= <-]. split; [split; discriminate | right; eauto].
    + destruct (URL_new url); [|discriminate].
      destruct (URL_new_base _ _); [|discriminate].
      intros [= <-]. split; [split; discriminate | right; eauto].
  - intros [= <-]. split; [split; intros; reflexivity | left; reflexivity].
Qed.

Lemma missing_flag_true t d i :
  missing_flag t d i = true <->
  truthy t = false \/ truthy d = false \/ truthy i = false.
Proof.
  unfold missing_flag, js_and.
  destruct (truthy t) eqn:Ht; cbn; rewrite ?Ht; cbn; rewrite ?Ht;
    [|intuition congruence].
  destruct (truthy d) eqn:Hd; cbn; rewrite ?Hd; cbn; rewrite ?Hd;
    [|intuition congruence].
  destruct (truthy i); intuition congruence.
Qed.

Lemma chain_value (o : gmap string string) keys :
  first_truthy (map (JS.get o) keys) = JUndefined
  \/ exists s, first_truthy (map (JS.get o) keys) = JStr s.
Proof.
  induction keys as [|k keys IH]; [left; reflexivity|].
  destruct keys as [|k' keys]; [apply get_cases|].
  change (map (JS.get o) (k :: k' :: keys))
    with (JS.get o k :: map (JS.get o) (k' :: keys)).
  destruct (truthy (JS.get o k)) eqn:Ht.
  - rewrite first_truthy_hit by exact Ht. apply get_cases.
  - rewrite first_truthy_skip by (try discriminate; exact Ht). exact IH.
Qed.

Lemma json_members_eq m :
  title m <> JNull -> description m <> JNull -> image m <> JUndefined ->
  json_members m
  = member "title" (title m) ++ member "description" (description m)
      ++ [("image", image m)].
Proof.
  destruct m as [t d i]. cbn. intros Ht Hd Hi.
  destruct t; try congruence; destruct d; try congruence;
    destruct i; try congruence; reflexivity.
Qed.

End Steps.

(** ** The usage record *)

(** C4, as amended. For every completed extraction the recording call
    fires exactly once, keyed by the page URL, and its missing flag is
    true if and only if the title is absent or the empty string, the
    description is absent or the empty string, or the image is null. *)
Theorem recording_fires_once `{Platform} url tr m :
  getMetaTags url = (tr, inr m) ->
  exists missing,
    List.filter is_record tr = [EvRecord url missing]
    /\ (missing = true <->
        truthy (title m) = false \/ truthy (description m) = false
        \/ image m = JNull).
Proof.
  rewrite getMetaTags_eq.
  destruct (fetch_text url) as [e|html]; [discriminate|].
  destruct (walk (parsed url html)) as [e|obj]; [discriminate|].
  cbv zeta.
  destruct (getRelativeUrl url (image_of obj)) as [e|resolved] eqn:Hr;
    [discriminate|].
  intros [= <- <-].
  exists (missing_flag (title_of obj) (description_of obj) (image_of obj)).
  split; [reflexivity|].
  rewrite missing_flag_true. cbn.
  destruct (getRelativeUrl_null _ _ _ Hr) as (Hnull & _). tauto.
Qed.

Lemma recording_fires_once_witness :
  exists missing,
    List.filter is_record
      (extraction_events Pages.page_url false)
    = [EvRecord Pages.page_url missing]
    /\ (missing = true <->
        truthy (JStr "Home") = false \/ truthy (JStr "A page") = false
        \/ JStr "https://example.com/favicon.png" = JNull).
Proof.
  apply (@recording_fires_once (Demo.platform None true Pages.complete)
           Pages.page_url (extraction_events Pages.page_url false)
           (mkMetaTags (JStr "Home") (JStr "A page")
              (JStr "https://example.com/favicon.png"))).
  vm_compute. reflexivity.
Defined.

(** C4 as stated fails: on the page whose title is the empty string, with
    a description and an image, none of the three final fields is absent
    and the flag recorded is true. *)
Lemma missing_flag_counterexample :
  @getMetaTags (Demo.platform None true Pages.empty_title) Pages.page_url
  = (extraction_events Pages.page_url true,
     inr (mkMetaTags (JStr "") (JStr "A page")
            (JStr "https://example.com/i.png")))
  /\ absent (JStr "") = false
  /\ absent (JStr "A page") = false
  /\ absent (JStr "https://example.com/i.png") = false.
Proof. repeat split; vm_compute; reflexivity. Qed.

(** ** The image resolver *)

(** C5. For every page URL and raw image value the resolver returns null
    when the raw value is falsy, that is the empty string, null or
    undefined (the absent image that [getMetaTags] passes); returns the
    raw value unchanged when it is not empty and [isValidUrl] accepts
    it; and otherwise resolves it against the base made of the page's
    protocol and host, returning the string of the resolved URL, or
    throwing when the page URL does not parse or the reference does not
    resolve. These four cases cover every raw value. In particular,
    given what the URL constructor does on these inputs, /favicon.png on
    https://example.com/foo/bar resolves to
    https://example.com/favicon.png. *)
Theorem getRelativeUrl_resolves `{Platform} :
  (forall imageUrl,
      truthy imageUrl = false
      <-> imageUrl = JStr "" \/ imageUrl = JNull \/ imageUrl = JUndefined)
  /\ (forall url imageUrl,
         truthy imageUrl = false ->
         getRelativeUrl url imageUrl = inr JNull)
  /\ (forall url imageUrl,
         truthy imageUrl = true -> isValidUrl imageUrl = true ->
         getRelativeUrl url imageUrl = inr imageUrl)
  /\ (forall url imageUrl page resolved,
         truthy imageUrl = true -> isValidUrl imageUrl = false ->
         URL_new url = Some page ->
         URL_new_base (to_string imageUrl) (protocol page +:+ "//" +:+ host page)
         = Some resolved ->
         getRelativeUrl url imageUrl = inr (JStr (href resolved)))
  /\ (forall url imageUrl,
         truthy imageUrl = true -> isValidUrl imageUrl = false ->
         URL_new url = None
         \/ (exists page,
                URL_new url = Some page
                /\ URL_new_base (to_string imageUrl)
                     (protocol page +:+ "//" +:+ host page) = None) ->
         getRelativeUrl url imageUrl = inl TypeError)
  /\ (isValidUrl (JStr "/favicon.png") = false ->
      (exists page,
          URL_new "https://example.com/foo/bar" = Some page
          /\ protocol page = "https:" /\ host page = "example.com") ->
      (exists resolved,
          URL_new_base "/favicon.png" "https://example.com" = Some resolved
          /\ href resolved = "https://example.com/favicon.png") ->
      getRelativeUrl "https://example.com/foo/bar" (JStr "/favicon.png")
      = inr (JStr "https://example.com/favicon.png")).
Proof.
  assert (Hrel : forall url imageUrl page resolved,
             truthy imageUrl = true -> isValidUrl imageUrl = false ->
             URL_new url = Some page ->
             URL_new_base (to_string imageUrl)
               (protocol page +:+ "//" +:+ host page) = Some resolved ->
             getRelativeUrl url imageUrl = inr (JStr (href resolved))).
  { intros url imageUrl page resolved Ht Hv Hp Hr.
    unfold getRelativeUrl. rewrite Ht, Hv, Hp, Hr. reflexivity. }
  split; [|split; [|split; [|split; [|split]]]].
  - intros imageUrl. split.
    + destruct imageUrl as [| |[|c s]]; cbn; auto. discriminate.
    + intros [-> | [-> | ->]]; reflexivity.
  - intros url imageUrl Ht. unfold getRelativeUrl. rewrite Ht. reflexivity.
  - intros url imageUrl Ht Hv. unfold getRelativeUrl. rewrite Ht, Hv. reflexivity.
  - exact Hrel.
  - intros url imageUrl Ht Hv Hfail. unfold getRelativeUrl. rewrite Ht, Hv. cbn.
    destruct Hfail as [-> | (page & -> & ->)]; reflexivity.
  - intros Hv (page & Hp & Hproto & Hhost) (resolved & Hr & Hhref).
    rewrite <- Hhref.
    apply (Hrel _ _ page); [reflexivity | exact Hv | exact Hp|].
    rewrite Hproto, Hhost. exact Hr.
Qed.

Lemma getRelativeUrl_resolves_witness :
  @getRelativeUrl (Demo.platform None true Pages.complete)
    "https://example.com/foo/bar" (JStr "/favicon.png")
  = inr (JStr "https://example.com/favicon.png")
  /\ @getRelativeUrl (Demo.platform None true Pages.complete)
       "https://example.com/foo/bar" (JStr "")
     = inr JNull
  /\ @getRelativeUrl (Demo.platform None true Pages.complete)
       "https://example.com/foo/bar" JNull
     = inr JNull
  /\ @getRelativeUrl (Demo.platform None true Pages.complete)
       "https://example.com/foo/bar" JUndefined
     = inr JNull
  /\ @getRelativeUrl (Demo.platform None true Pages.complete)
       "https://example.com/foo/bar" (JStr "https://cdn.example.com/i.png")
     = inr (JStr "https://cdn.example.com/i.png")
  /\ @getRelativeUrl (Demo.platform None true Pages.complete)
       "https://example.com/foo/bar" (JStr "https://")
     = inl TypeError.
Proof.
  destruct (@getRelativeUrl_resolves (Demo.platform None true Pages.complete))
    as (_ & Hnull & Hvalid & _ & Hthrow & Hicon).
  split; [|split; [|split; [|split; [|split]]]].
  - apply Hicon.
    + reflexivity.
    + eexists. repeat split; reflexivity.
    + eexists. split; reflexivity.
  - apply Hnull. reflexivity.
  - apply Hnull. reflexivity.
  - apply Hnull. reflexivity.
  - apply Hvalid; reflexivity.
  - apply Hthrow; [reflexivity | reflexivity |].
    right. eexists. split; reflexivity.
Defined.

(** ** Title elements *)

(** C6, as amended. For every parsed document containing a title element
    with no child node, whatever else it contains, the walk throws a
    TypeError, and with it the extraction, before anything is recorded,
    and the handler, which leaves it uncaught.
    For every title element whose first child carries a string value (a
    text node), the callback assigns the entity-decoded value to the
    title key of the tag map; when the first child carries no value (an
    element), the callback throws a TypeError as well. *)
Theorem title_element `{Platform} :
  (walk_complete ->
   forall attributes ast,
     subnode (Element "title" attributes []) ast ->
     walk ast = inl TypeError
     /\ forall url html,
          fetch_text url = inr html -> parsed url html = ast ->
          getMetaTags url = ([EvFetch url "dub-bot/1.0"], inl TypeError)
          /\ forall req,
               req_method req = "GET" ->
               searchParams_get (req_query req) "url" = JStr url ->
               isValidUrl (JStr url) = true ->
               gate_open req = true ->
               handler req
               = (gate_events req ++ [EvFetch url "dub-bot/1.0"],
                  inl TypeError))
  /\ (forall attributes child rest obj v,
         node_value child = JStr v ->
         visitor (Element "title" attributes (child :: rest)) obj
         = inr (JS.set (JStr "title") (he_decode v) obj)
         /\ JS.get (JS.set (JStr "title") (he_decode v) obj) "title"
            = JStr (he_decode v))
  /\ (forall attributes child rest obj,
         node_value child = JUndefined ->
         visitor (Element "title" attributes (child :: rest)) obj
         = inl TypeError).
Proof.
  split; [|split].
  - intros Hcomplete attributes ast Hsub.
    assert (Hwalk : walk ast = inl TypeError).
    { unfold walk.
      apply (visit_all_throws (Element "title" attributes [])).
      - apply Hcomplete, Hsub.
      - intros obj. reflexivity. }
    split; [exact Hwalk|].
    intros url html Hfetch Hast.
    assert (Hm : getMetaTags url
                 = ([EvFetch url "dub-bot/1.0"], inl TypeError)).
    { rewrite getMetaTags_eq, Hfetch, Hast, Hwalk. reflexivity. }
    split; [exact Hm|].
    intros req Hget Hurl Hvalid Hopen.
    apply (handler_throws req url); assumption.
  - intros attributes child rest obj v Hv. split.
    + cbn. rewrite Hv. reflexivity.
    + apply (get_set_eq (JStr "title")). discriminate.
  - intros attributes child rest obj Hv. cbn. rewrite Hv. reflexivity.
Qed.

Lemma title_element_witness :
  @walk (Demo.platform None true Pages.childless_title) Pages.childless_title
  = inl TypeError
  /\ @visitor (Demo.platform None true Pages.complete)
       (Element "title" ∅ [Text "Home"]) ∅
     = inr {[ "title" := "Home" ]}.
Proof.
  destruct (@title_element (Demo.platform None true Pages.childless_title))
    as (Hnone & _ & _).
  destruct (@title_element (Demo.platform None true Pages.complete))
    as (_ & Htext & _).
  split.
  - apply (Hnone preorder_complete ∅).
    apply subnode_child with (c := Element "html" ∅
                                     [Element "head" ∅ [Element "title" ∅ []];
                                      Element "body" ∅ [Text "Hello"]]);
      [right; left; reflexivity|].
    apply subnode_child with (c := Element "head" ∅ [Element "title" ∅ []]);
      [left; reflexivity|].
    apply subnode_child with (c := Element "title" ∅ []);
      [left; reflexivity|].
    apply subnode_here.
  - destruct (Htext ∅ (Text "Home") [] ∅ "Home" eq_refl) as (Hv & _).
    rewrite Hv. reflexivity.
Defined.

(** C6 as stated fails in its second half: the title element
    [<title><b>Home</b></title>] has a child, and the callback throws
    instead of setting the title. *)
Lemma title_child_counterexample :
  node_children Pages.markup_title = [Element "b" ∅ [Text "Home"]]
  /\ @visitor (Demo.platform None true Pages.bare) Pages.markup_title ∅
     = inl TypeError.
Proof. split; reflexivity. Qed.

(** ** The handler *)

(** C7. For every GET request whose url query parameter is missing or
    is rejected by [isValidUrl], the handler answers 400 with the body
    Invalid URL, and the trace of the request is empty: no token check,
    no rate-limiter call, no fetch. That [isValidUrl] rejects a missing
    parameter is [rejects_missing]. *)
Theorem invalid_url_rejected `{Platform} req :
  req_method req = "GET" ->
  rejects_missing ->
  searchParams_get (req_query req) "url" = JNull
  \/ isValidUrl (searchParams_get (req_query req) "url") = false ->
  handler req = ([], inr (mkResponse "Invalid URL" 400 [])).
Proof.
  intros Hget Hnull Hurl.
  assert (Hinvalid : isValidUrl (searchParams_get (req_query req) "url") = false).
  { destruct Hurl as [-> | Hurl]; assumption. }
  unfold handler. rewrite Hget, Hinvalid. reflexivity.
Qed.

Lemma invalid_url_rejected_witness :
  @handler (Demo.platform None true Pages.complete) Pages.no_url_request
  = ([], inr (mkResponse "Invalid URL" 400 []))
  /\ @handler (Demo.platform None true Pages.complete) Pages.bad_url_request
     = ([], inr (mkResponse "Invalid URL" 400 [])).
Proof.
  split.
  - apply (@invalid_url_rejected (Demo.platform None true Pages.complete)
             Pages.no_url_request);
      [reflexivity | reflexivity | left; reflexivity].
  - apply (@invalid_url_rejected (Demo.platform None true Pages.complete)
             Pages.bad_url_request);
      [reflexivity | reflexivity | right; reflexivity].
Defined.

Lemma getMetaTags_no_limit `{Platform} url :
  List.filter is_limit (trace (getMetaTags url)) = [].
Proof.
  rewrite getMetaTags_eq.
  destruct (fetch_text url) as [e|html]; [reflexivity|].
  destruct (walk (parsed url html)) as [e|obj]; [reflexivity|].
  cbv zeta. destruct (getRelativeUrl url (image_of obj)); reflexivity.
Qed.

(** C8, as amended. For every GET request with a valid url: if the
    session token yields an identity (a non-empty email) the rate limiter
    is never consulted; otherwise the limiter is called, once, right
    after the token check, with the bucket key metatags, and if it
    reports exhaustion the handler answers 429 with the fixed body and
    performs no fetch. *)
Theorem access_gate `{Platform} req :
  req_method req = "GET" ->
  isValidUrl (searchParams_get (req_query req) "url") = true ->
  (signed_in req = true ->
   List.filter is_limit (trace (handler req)) = [])
  /\ (signed_in req = false ->
      (exists rest,
          trace (handler req) = EvGetToken :: EvLimit "metatags" :: rest
          /\ List.filter is_limit rest = [])
      /\ (ratelimit_limit "metatags" = false ->
          handler req
          = ([EvGetToken; EvLimit "metatags"],
             inr (mkResponse "Don't DDoS me pls 🥺" 429 []))
          /\ List.filter is_fetch (trace (handler req)) = [])).
Proof.
  intros Hget Hvalid. rewrite (handler_eq req Hget Hvalid).
  unfold gate_open, gate_events.
  pose proof (getMetaTags_no_limit
                (to_string (searchParams_get (req_query req) "url"))) as Hnl.
  destruct (getMetaTags (to_string (searchParams_get (req_query req) "url")))
    as [tr r]. cbn [trace fst] in Hnl.
  split.
  - intros ->. cbn. destruct r; cbn; exact Hnl.
  - intros ->. cbn. split.
    + destruct (ratelimit_limit "metatags").
      * exists tr. destruct r; split; cbn; auto.
      * exists []. split; reflexivity.
    + intros ->. split; reflexivity.
Qed.

Lemma access_gate_witness :
  List.filter is_limit
    (trace (@handler (Demo.platform Pages.session false Pages.complete)
              Pages.get_request)) = []
  /\ @handler (Demo.platform None false Pages.complete) Pages.get_request
     = ([EvGetToken; EvLimit "metatags"],
        inr (mkResponse "Don't DDoS me pls 🥺" 429 [])).
Proof.
  split.
  - apply (@access_gate (Demo.platform Pages.session false Pages.complete)
             Pages.get_request); reflexivity.
  - apply (@access_gate (Demo.platform None false Pages.complete)
             Pages.get_request); reflexivity.
Defined.

(** C8 as stated fails: a POST request with a valid url and no session
    resolves no identity, and the limiter is not called. *)
Lemma other_method_counterexample :
  @isValidUrl (Demo.platform None true Pages.complete)
    (searchParams_get (req_query Pages.post_request) "url") = true
  /\ @signed_in (Demo.platform None true Pages.complete) Pages.post_request
     = false
  /\ @handler (Demo.platform None true Pages.complete) Pages.post_request
     = ([], inr (mkResponse "Method POST Not Allowed" 405 [])).
Proof. repeat split; reflexivity. Qed.

(** C9, as amended. For every GET request that passes validation,
    gating, fetch and extraction, the handler answers 200 with
    Content-Type application/json and the JSON text of the extracted
    object. That text always has the key image, whose value is a string
    or null; it has the key title exactly when a title was found, and
    then its value is a string, and likewise for description: a field
    that was not found is left out of the body, not written as null. *)
Theorem success_response `{Platform} req tr m :
  req_method req = "GET" ->
  isValidUrl (searchParams_get (req_query req) "url") = true ->
  gate_open req = true ->
  getMetaTags (to_string (searchParams_get (req_query req) "url"))
  = (tr, inr m) ->
  handler req
  = (gate_events req ++ tr,
     inr (mkResponse (JSON_stringify m) 200
            [("Content-Type", "application/json")]))
  /\ json_members m
     = member "title" (title m) ++ member "description" (description m)
         ++ [("image", image m)]
  /\ (title m = JUndefined \/ exists s, title m = JStr s)
  /\ (description m = JUndefined \/ exists s, description m = JStr s)
  /\ (image m = JNull \/ exists s, image m = JStr s).
Proof.
  intros Hget Hvalid Hopen Hm.
  split.
  { rewrite (handler_eq req Hget Hvalid), Hopen, Hm. reflexivity. }
  rewrite getMetaTags_eq in Hm.
  destruct (fetch_text _) as [e|html]; [discriminate|].
  destruct (walk _) as [e|obj]; [discriminate|].
  cbv zeta in Hm.
  destruct (getRelativeUrl _ (image_of obj)) as [e|resolved] eqn:Hr;
    [discriminate|].
  injection Hm as _ <-. cbn [title description image].
  destruct (getRelativeUrl_null _ _ _ Hr) as (_ & Himage).
  assert (Htitle := chain_value obj title_keys).
  assert (Hdesc := chain_value obj description_keys).
  rewrite <- title_of_chain in Htitle.
  rewrite <- description_of_chain in Hdesc.
  split; [|tauto].
  apply json_members_eq; cbn [title description image].
  - destruct Htitle as [-> | [s ->]]; discriminate.
  - destruct Hdesc as [-> | [s ->]]; discriminate.
  - destruct Himage as [-> | [s ->]]; discriminate.
Qed.

Lemma success_response_witness :
  @handler (Demo.platform None true Pages.complete) Pages.get_request
  = ([EvGetToken; EvLimit "metatags"]
       ++ extraction_events Pages.page_url false,
     inr (mkResponse
            (JSON_stringify
               (mkMetaTags (JStr "Home") (JStr "A page")
                  (JStr "https://example.com/favicon.png")))
            200 [("Content-Type", "application/json")])).
Proof.
  apply (@success_response (Demo.platform None true Pages.complete)
           Pages.get_request (extraction_events Pages.page_url false)
           (mkMetaTags (JStr "Home") (JStr "A page")
              (JStr "https://example.com/favicon.png")));
    vm_compute; reflexivity.
Defined.

(** C9 as stated fails: for a page with no metadata the body is
    [{"image":null}], with neither a title nor a description key. *)
Lemma absent_keys_counterexample :
  @handler (Demo.platform None true Pages.bare) Pages.get_request
  = ([EvGetToken; EvLimit "metatags"]
       ++ extraction_events Pages.page_url true,
     inr (mkResponse ("{" +:+ dquote +:+ "image" +:+ dquote +:+ ":null}")
            200 [("Content-Type", "application/json")]))
  /\ json_members (mkMetaTags JUndefined JUndefined JNull)
     = [("image", JNull)].
Proof. split; vm_compute; reflexivity. Qed.

(** C10. The recording call is dispatched before the image is resolved,
    and its flag is computed from the raw image value: for every
    extraction in which the resolver throws, the trace of the extraction
    already holds the recording call, with the flag computed from the
    title, the description and the raw image of the tag map; the raw
    image being non-empty there, the flag says whether title or
    description is missing. The exception leaves the handler
    uncaught. *)
Theorem recorded_before_resolution `{Platform} url html obj e :
  fetch_text url = inr html ->
  walk (parsed url html) = inr obj ->
  getRelativeUrl url (image_of obj) = inl e ->
  getMetaTags url
  = ([EvFetch url "dub-bot/1.0";
      EvRecord url
        (missing_flag (title_of obj) (description_of obj) (image_of obj))],
     inl e)
  /\ (missing_flag (title_of obj) (description_of obj) (image_of obj) = true
      <-> truthy (title_of obj) = false \/ truthy (description_of obj) = false)
  /\ forall req,
       req_method req = "GET" ->
       searchParams_get (req_query req) "url" = JStr url ->
       isValidUrl (JStr url) = true ->
       gate_open req = true ->
       handler req
       = (gate_events req
            ++ [EvFetch url "dub-bot/1.0";
                EvRecord url
                  (missing_flag (title_of obj) (description_of obj)
                     (image_of obj))],
          inl e).
Proof.
  intros Hfetch Hwalk Hthrow.
  assert (Hm : getMetaTags url
               = ([EvFetch url "dub-bot/1.0";
                   EvRecord url
                     (missing_flag (title_of obj) (description_of obj)
                        (image_of obj))], inl e)).
  { rewrite getMetaTags_eq, Hfetch, Hwalk. cbv zeta. rewrite Hthrow.
    reflexivity. }
  split; [exact Hm|]. split.
  - rewrite missing_flag_true.
    assert (Ht : truthy (image_of obj) = true).
    { unfold getRelativeUrl in Hthrow.
      destruct (truthy (image_of obj)); [reflexivity | discriminate]. }
    rewrite Ht. intuition discriminate.
  - intros req Hget Hurl Hvalid Hopen.
    apply (handler_throws req url); assumption.
Qed.

Lemma recorded_before_resolution_witness :
  @getMetaTags (Demo.platform None true Pages.broken_image) Pages.page_url
  = ([EvFetch Pages.page_url "dub-bot/1.0"; EvRecord Pages.page_url true],
     inl TypeError)
  /\ @handler (Demo.platform None true Pages.broken_image) Pages.get_request
     = ([EvGetToken; EvLimit "metatags";
         EvFetch Pages.page_url "dub-bot/1.0";
         EvRecord Pages.page_url true],
        inl TypeError).
Proof.
  destruct (@recorded_before_resolution
              (Demo.platform None true Pages.broken_image)
              Pages.page_url "" {[ "title" := "Home"; "og:image" := "https://" ]}
              TypeError)
    as (Hm & _ & Hreq); try (vm_compute; reflexivity).
  split.
  - exact Hm.
  - apply (Hreq Pages.get_request); reflexivity.
Defined.

(** * Further properties *)

(** ** Requests that are turned away *)

(** X1. A request whose method is not GET is answered 405 with the body
    naming the method, and nothing else happens: no token check, no
    rate-limiter call, no fetch, no record, whatever the url. *)
Theorem method_not_allowed `{Platform} req :
  req_method req <> "GET" ->
  handler req
  = ([], inr (mkResponse ("Method " +:+ req_method req +:+ " Not Allowed")
                405 [])).
Proof.
  intros Hm. unfold handler.
  destruct (String.eqb_spec (req_method req) "GET"); [contradiction|].
  reflexivity.
Qed.

Lemma method_not_allowed_witness :
  @handler (Demo.platform None true Pages.complete) Pages.post_request
  = ([], inr (mkResponse "Method POST Not Allowed" 405 [])).
Proof.
  apply (@method_not_allowed (Demo.platform None true Pages.complete)
           Pages.post_request).
  discriminate.
Defined.

(** X2. When the fetch is rejected, the extraction ends with that
    rejection after the one fetch: nothing is parsed, walked or
    recorded, and the rejection leaves the handler uncaught. *)
Theorem fetch_failure `{Platform} url e :
  fetch_text url = inl e ->
  getAst url = ([EvFetch url "dub-bot/1.0"], inl e)
  /\ getMetaTags url = ([EvFetch url "dub-bot/1.0"], inl e)
  /\ forall req,
       req_method req = "GET" ->
       searchParams_get (req_query req) "url" = JStr url ->
       isValidUrl (JStr url) = true ->
       gate_open req = true ->
       handler req = (gate_events req ++ [EvFetch url "dub-bot/1.0"], inl e).
Proof.
  intros Hf.
  assert (Hm : getMetaTags url = ([EvFetch url "dub-bot/1.0"], inl e)).
  { rewrite getMetaTags_eq, Hf. reflexivity. }
  split; [rewrite getAst_eq, Hf; reflexivity|].
  split; [exact Hm|].
  intros req Hget Hurl Hvalid Hopen.
  apply (handler_throws req url); assumption.
Qed.

Lemma fetch_failure_witness :
  @handler (@offline (Demo.platform None true Pages.complete))
    Pages.get_request
  = ([EvGetToken; EvLimit "metatags";
      EvFetch Pages.page_url "dub-bot/1.0"],
     inl (Rejected "fetch failed")).
Proof.
  destruct (@fetch_failure (@offline (Demo.platform None true Pages.complete))
              Pages.page_url (Rejected "fetch failed") eq_refl)
    as (_ & _ & Hreq).
  apply (Hreq Pages.get_request); reflexivity.
Defined.

(** ** The shape of a request's trace *)

Lemma handler_turned_away `{Platform} req :
  req_method req <> "GET"
  \/ isValidUrl (searchParams_get (req_query req) "url") = false ->
  exists resp, handler req = ([], inr resp)
               /\ (status resp = 405 \/ status resp = 400)
               /\ headers resp = [].
Proof.
  intros Hturn. unfold handler.
  destruct (String.eqb_spec (req_method req) "GET") as [Hget|Hget].
  - destruct Hturn as [Hturn | Hturn]; [contradiction|].
    rewrite Hturn. cbn. eexists. split; [reflexivity|]. cbn. tauto.
  - eexists. split; [reflexivity|]. cbn. tauto.
Qed.

Lemma getMetaTags_trace `{Platform} url :
  exists missing rest,
    trace (getMetaTags url) ++ rest = extraction_events url missing.
Proof.
  rewrite getMetaTags_eq. unfold extraction_events.
  destruct (fetch_text url) as [e|html];
    [exists true, [EvRecord url true]; reflexivity|].
  destruct (walk (parsed url html)) as [e|obj];
    [exists true, [EvRecord url true]; reflexivity|].
  cbv zeta.
  exists (missing_flag (title_of obj) (description_of obj) (image_of obj)), [].
  destruct (getRelativeUrl url (image_of obj)); reflexivity.
Qed.

(** X3. Whatever the request and whatever the outside world answers, the
    events of a request are an initial part of one fixed sequence: the
    token check, then the limiter on the bucket metatags unless the
    caller is signed in, then the fetch of the requested url, then the
    record keyed by that url. So no step is repeated or reordered: there
    is at most one fetch and at most one record, no fetch before the
    gate, and no record before the fetch. *)
Theorem trace_is_prefix `{Platform} req :
  exists missing rest,
    trace (handler req) ++ rest
    = gate_events req ++ extraction_events (request_url req) missing.
Proof.
  destruct (String.eqb_spec (req_method req) "GET") as [Hget|Hget].
  - destruct (isValidUrl (searchParams_get (req_query req) "url")) eqn:Hvalid.
    + rewrite (handler_eq req Hget Hvalid). fold (request_url req).
      destruct (gate_open req).
      * destruct (getMetaTags_trace (request_url req)) as (b & rest & Hrest).
        exists b, rest.
        destruct (getMetaTags (request_url req)) as [tr [e|m]];
          cbn [trace fst] in *; rewrite <- app_assoc, Hrest; reflexivity.
      * exists true, (extraction_events (request_url req) true). reflexivity.
    + destruct (handler_turned_away req (or_intror Hvalid)) as (resp & -> & _).
      exists true. eexists. reflexivity.
  - destruct (handler_turned_away req (or_introl Hget)) as (resp & -> & _).
    exists true. eexists. reflexivity.
Qed.

(** X4. The status of a response tells what happened. A 405 or a 400
    comes with no event at all; a 429 comes after exactly the token check
    and one limiter call, for a caller that is not signed in; a 200 comes
    after the gate, one fetch and one record. The handler returns no
    other status. *)
Theorem status_tells_trace `{Platform} req tr resp :
  handler req = (tr, inr resp) ->
  ((status resp = 405 \/ status resp = 400) /\ tr = [])
  \/ (status resp = 429 /\ tr = [EvGetToken; EvLimit "metatags"]
      /\ signed_in req = false)
  \/ (status resp = 200
      /\ exists missing,
           tr = gate_events req
                  ++ extraction_events (request_url req) missing).
Proof.
  destruct (String.eqb_spec (req_method req) "GET") as [Hget|Hget].
  - destruct (isValidUrl (searchParams_get (req_query req) "url")) eqn:Hvalid.
    + rewrite (handler_eq req Hget Hvalid). fold (request_url req).
      unfold gate_open, gate_events.
      destruct (signed_in req) eqn:Hs; cbn [orb].
      * rewrite getMetaTags_eq.
        destruct (fetch_text _) as [e|html]; [discriminate|].
        destruct (walk _) as [e|obj]; [discriminate|]. cbv zeta.
        destruct (getRelativeUrl _ _); [discriminate|].
        intros [= <- <-]. right. right. cbn. eauto.
      * destruct (ratelimit_limit "metatags").
        -- rewrite getMetaTags_eq.
           destruct (fetch_text _) as [e|html]; [discriminate|].
           destruct (walk _) as [e|obj]; [discriminate|]. cbv zeta.
           destruct (getRelativeUrl _ _); [discriminate|].
           intros [= <- <-]. right. right. cbn. eauto.
        -- intros [= <- <-]. right. left. cbn. tauto.
    + destruct (handler_turned_away req (or_intror Hvalid))
        as (resp' & -> & Hst & Hh).
      intros [= <- <-]. left. tauto.
  - destruct (handler_turned_away req (or_introl Hget))
      as (resp' & -> & Hst & Hh).
    intros [= <- <-]. left. tauto.
Qed.

Lemma status_tells_trace_witness :
  ((status (mkResponse "Don't DDoS me pls 🥺" 429 []) = 405
    \/ status (mkResponse "Don't DDoS me pls 🥺" 429 []) = 400)
   /\ [EvGetToken; EvLimit "metatags"] = [])
  \/ (status (mkResponse "Don't DDoS me pls 🥺" 429 []) = 429
      /\ [EvGetToken; EvLimit "metatags"] = [EvGetToken; EvLimit "metatags"]
      /\ @signed_in (Demo.platform None false Pages.complete)
           Pages.get_request = false)
  \/ (status (mkResponse "Don't DDoS me pls 🥺" 429 []) = 200
      /\ exists missing,
           [EvGetToken; EvLimit "metatags"]
           = @gate_events (Demo.platform None false Pages.complete)
               Pages.get_request
               ++ extraction_events (request_url Pages.get_request) missing).
Proof.
  apply (@status_tells_trace (Demo.platform None false Pages.complete)
           Pages.get_request).
  reflexivity.
Defined.

(** ** Fetching and parsing *)

(** X5. Script elements are stripped before parsing exactly for the
    special host: when the fetch succeeds, [getAst] parses the sanitized
    text if the url's domain without www is developer.mozilla.org, and
    the text as fetched for every other domain. *)
Theorem scripts_stripped_for_special_host `{Platform} url html :
  fetch_text url = inr html ->
  (getDomainWithoutWWW url = JStr "developer.mozilla.org" ->
   getAst url
   = ([EvFetch url "dub-bot/1.0"], inr (parse (sanitize_scripts html))))
  /\ (getDomainWithoutWWW url <> JStr "developer.mozilla.org" ->
      getAst url = ([EvFetch url "dub-bot/1.0"], inr (parse html))).
Proof.
  intros Hf. rewrite getAst_eq, Hf. unfold parsed. split.
  - intros ->. reflexivity.
  - intros Hd. destruct (getDomainWithoutWWW url) as [| |d]; try reflexivity.
    cbn. destruct (String.eqb_spec d "developer.mozilla.org") as [->|_];
      [contradiction | reflexivity].
Qed.

Lemma scripts_stripped_for_special_host_witness :
  @getAst (@scripted (Demo.platform None true Pages.bare))
    "https://developer.mozilla.org/en-US/"
  = ([EvFetch "https://developer.mozilla.org/en-US/" "dub-bot/1.0"],
     inr (Document [Text "<p>Hi</p>"]))
  /\ @getAst (@scripted (Demo.platform None true Pages.bare))
       "https://www.example.com/"
     = ([EvFetch "https://www.example.com/" "dub-bot/1.0"],
        inr (Document [Text "<script>track()</script><p>Hi</p>"])).
Proof.
  split.
  - apply (@scripts_stripped_for_special_host
             (@scripted (Demo.platform None true Pages.bare))
             "https://developer.mozilla.org/en-US/"
             "<script>track()</script><p>Hi</p>" eq_refl).
    reflexivity.
  - apply (@scripts_stripped_for_special_host
             (@scripted (Demo.platform None true Pages.bare))
             "https://www.example.com/"
             "<script>track()</script><p>Hi</p>" eq_refl).
    vm_compute. discriminate.
Defined.

(** ** The walk as a whole *)

Section WalkAsAWhole.

Context `{Platform}.

(** The callback, by what it throws and what it stores. *)
Lemma visitor_eq n obj :
  visitor n obj = if throws n then inl TypeError else inr (stored n obj).
Proof.
  destruct n as [cs|nm a cs|v|v|v]; try reflexivity.
  cbn. unfold stored, stores.
  destruct (String.eqb nm "title"); cbn.
  - destruct cs as [|c cs]; [reflexivity|].
    destruct (node_value c); reflexivity.
  - destruct (node_content a); try reflexivity.
    cbn. unfold JS.set.
    destruct (String.eqb (to_string (node_property a)) "__proto__");
      reflexivity.
Qed.

Lemma visit_all_eq ns obj :
  visit_all ns obj
  = if existsb throws ns then inl TypeError
    else inr (fold_left (fun o n => stored n o) ns obj).
Proof.
  revert obj. induction ns as [|n ns IH]; intros obj; [reflexivity|].
  cbn. rewrite visitor_eq.
  destruct (throws n); [reflexivity|]. cbn. apply IH.
Qed.

Lemma stored_lookup n (obj : gmap string string) k :
  stored n obj !! k
  = match stores n with
    | Some (k', v) => if String.eqb k' k then Some v else obj !! k
    | None => obj !! k
    end.
Proof.
  unfold stored. destruct (stores n) as [[k' v]|]; [|reflexivity].
  destruct (String.eqb_spec k' k) as [->|Hne].
  - apply lookup_insert_eq.
  - apply lookup_insert_ne, Hne.
Qed.

Lemma fold_stored_lookup ns (obj : gmap string string) k :
  fold_left (fun o n => stored n o) ns obj !! k
  = match last_stored k ns with
    | Some v => Some v
    | None => obj !! k
    end.
Proof.
  revert obj. induction ns as [|n ns IH]; intros obj; [reflexivity|].
  cbn. rewrite IH. destruct (last_stored k ns); [reflexivity|].
  rewrite stored_lookup. destruct (stores n) as [[k' v]|]; [|reflexivity].
  destruct (String.eqb k' k); reflexivity.
Qed.

Lemma stores_shape n k v :
  stores n = Some (k, v) -> k <> "__proto__" /\ exists s, v = he_decode s.
Proof.
  destruct n as [cs|nm a cs|x|x|x]; try discriminate. cbn.
  destruct (String.eqb nm "title").
  - destruct cs as [|c cs]; [discriminate|].
    destruct (node_value c); try discriminate.
    intros [= <- <-]. split; [discriminate | eauto].
  - destruct (node_content a); try discriminate.
    destruct (String.eqb_spec (to_string (node_property a)) "__proto__");
      [discriminate|].
    intros [= <- <-]. split; [assumption | eauto].
Qed.

Lemma stores_throws n kv : stores n = Some kv -> throws n = false.
Proof.
  destruct n as [cs|nm a cs|x|x|x]; try discriminate. cbn.
  destruct (String.eqb nm "title"); [|reflexivity].
  destruct cs as [|c cs]; [discriminate|].
  destruct (node_value c); try discriminate. reflexivity.
Qed.

Lemma last_stored_in k ns v :
  last_stored k ns = Some v -> exists n, In n ns /\ stores n = Some (k, v).
Proof.
  induction ns as [|n ns IH]; [discriminate|]. cbn.
  destruct (last_stored k ns) as [w|].
  - intros [= ->]. destruct (IH eq_refl) as (m & Hin & Hm). eauto.
  - destruct (stores n) as [[k' w]|] eqn:Hn; [|discriminate].
    destruct (String.eqb_spec k' k) as [->|]; [|discriminate].
    intros [= ->]. eauto.
Qed.

Lemma stored_keys_cons n ns :
  stored_keys (n :: ns)
  = match stores n with
    | Some (k, _) => k :: stored_keys ns
    | None => stored_keys ns
    end.
Proof. unfold stored_keys. cbn. destruct (stores n) as [[k v]|]; reflexivity. Qed.

Lemma stored_keys_in n ns k v :
  In n ns -> stores n = Some (k, v) -> k ∈ stored_keys ns.
Proof.
  intros Hin Hn. unfold stored_keys.
  apply (list_elem_of_fmap_2 fst _ (k, v)).
  apply list_elem_of_omap. exists n. split; [|exact Hn].
  apply list_elem_of_In, Hin.
Qed.

(** When no two nodes store under one key, a key's last value is the
    value of any node that stores under it. *)
Lemma last_stored_unique k ns n v :
  NoDup (stored_keys ns) -> In n ns -> stores n = Some (k, v) ->
  last_stored k ns = Some v.
Proof.
  induction ns as [|m ns IH]; intros Hnd Hin Hn; [destruct Hin|].
  rewrite stored_keys_cons in Hnd. cbn.
  destruct Hin as [-> | Hin].
  - rewrite Hn in *. apply NoDup_cons in Hnd as (Hk & Hnd).
    destruct (last_stored k ns) as [w|] eqn:Hl.
    + destruct (last_stored_in _ _ _ Hl) as (m & Hm & Hs).
      exfalso. apply Hk. eapply stored_keys_in; eassumption.
    + rewrite String.eqb_refl. reflexivity.
  - assert (Hnd' : NoDup (stored_keys ns)).
    { destruct (stores m) as [[k' w]|]; [|exact Hnd].
      apply NoDup_cons in Hnd as (_ & Hnd). exact Hnd. }
    rewrite (IH Hnd' Hin Hn). reflexivity.
Qed.

Lemma existsb_throws_perm ns ns' :
  ns ≡ₚ ns' -> existsb throws ns = existsb throws ns'.
Proof.
  intros Hp.
  destruct (existsb throws ns) eqn:E, (existsb throws ns') eqn:E';
    try reflexivity.
  - apply existsb_exists in E as (n & Hin & Hn).
    assert (existsb throws ns' = true) as Ht; [|congruence].
    apply existsb_exists. exists n. split; [|exact Hn].
    eapply Permutation_in; eassumption.
  - apply existsb_exists in E' as (n & Hin & Hn).
    assert (existsb throws ns = true) as Ht; [|congruence].
    apply existsb_exists. exists n. split; [|exact Hn].
    eapply Permutation_in; [symmetry|]; eassumption.
Qed.

Lemma last_stored_perm k ns ns' :
  ns ≡ₚ ns' -> NoDup (stored_keys ns) ->
  last_stored k ns = last_stored k ns'.
Proof.
  intros Hp Hnd.
  assert (Hnd' : NoDup (stored_keys ns')).
  { unfold stored_keys in *. rewrite <- Hp. exact Hnd. }
  destruct (last_stored k ns) as [v|] eqn:E.
  - destruct (last_stored_in _ _ _ E) as (n & Hin & Hn).
    symmetry. apply (last_stored_unique k ns' n); [exact Hnd' | | exact Hn].
    eapply Permutation_in; eassumption.
  - destruct (last_stored k ns') as [v|] eqn:E'; [|reflexivity].
    destruct (last_stored_in _ _ _ E') as (n & Hin & Hn).
    rewrite (last_stored_unique k ns n v) in E; [discriminate | exact Hnd | | exact Hn].
    eapply Permutation_in; [symmetry|]; eassumption.
Qed.

End WalkAsAWhole.

(** X6. The walk fails exactly when it visits a title element that has
    no first child or whose first child carries no string value. Whether
    the callback throws at a node depends on the node alone, not on the
    tag map so far, and a walk that meets no such node returns a map. *)
Theorem walk_fails_iff `{Platform} :
  (forall n obj, visitor n obj = inl TypeError <-> throws n = true)
  /\ (forall ns obj,
         visit_all ns obj = inl TypeError
         <-> exists n, In n ns /\ throws n = true)
  /\ (forall ns obj,
         (exists obj', visit_all ns obj = inr obj')
         <-> Forall (fun n => throws n = false) ns).
Proof.
  split; [|split].
  - intros n obj. rewrite visitor_eq. destruct (throws n); split; congruence.
  - intros ns obj. rewrite visit_all_eq, <- existsb_exists.
    destruct (existsb throws ns); split; congruence.
  - intros ns obj. rewrite visit_all_eq. split.
    + intros (obj' & Hv). apply List.Forall_forall. intros n Hin.
      destruct (throws n) eqn:Hn; [|reflexivity].
      assert (Ht : existsb throws ns = true)
        by (apply existsb_exists; eauto).
      rewrite Ht in Hv. discriminate.
    + intros Hall.
      destruct (existsb throws ns) eqn:Ht; [|eauto].
      apply existsb_exists in Ht as (n & Hin & Hn).
      rewrite List.Forall_forall in Hall. rewrite (Hall n Hin) in Hn.
      discriminate.
Qed.

(** X7. After a walk that returns, the value under every key is the one
    stored by the last visited node that stores under that key, and the
    value the map had before when no visited node does; non-element
    nodes, elements without a content or href value and elements keyed
    [__proto__] store nothing. *)
Theorem walk_last_write_wins `{Platform} ns obj obj' :
  visit_all ns obj = inr obj' ->
  (forall n o, In n ns -> visitor n o = inr (stored n o))
  /\ forall k,
       obj' !! k = match last_stored k ns with
                   | Some v => Some v
                   | None => obj !! k
                   end.
Proof.
  intros Hwalk. split.
  - intros n o Hin. rewrite visitor_eq.
    destruct (throws n) eqn:Hn; [|reflexivity].
    rewrite visit_all_eq in Hwalk.
    assert (Ht : existsb throws ns = true) by (apply existsb_exists; eauto).
    rewrite Ht in Hwalk. discriminate.
  - intros k. rewrite visit_all_eq in Hwalk.
    destruct (existsb throws ns); [discriminate|].
    injection Hwalk as <-. apply fold_stored_lookup.
Qed.

Lemma walk_last_write_wins_witness :
  ({[ "title" := "Later"; "icon" := "/favicon.ico" ]} : gmap string string)
    !! "title"
  = match
      @last_stored (Demo.platform None true Pages.bare) "title"
        [Element "title" ∅ [Text "Home"];
         Pages.link {[ "rel" := "icon"; "href" := "/favicon.ico" ]};
         Pages.meta {[ "name" := "title"; "content" := "Later" ]};
         Text "Hello"]
    with
    | Some v => Some v
    | None => (∅ : gmap string string) !! "title"
    end.
Proof.
  destruct (@walk_last_write_wins (Demo.platform None true Pages.bare)
              [Element "title" ∅ [Text "Home"];
               Pages.link {[ "rel" := "icon"; "href" := "/favicon.ico" ]};
               Pages.meta {[ "name" := "title"; "content" := "Later" ]};
               Text "Hello"]
              ∅ {[ "title" := "Later"; "icon" := "/favicon.ico" ]})
    as (_ & Hlookup).
  - vm_compute. reflexivity.
  - apply Hlookup.
Defined.

(** X8. Every entry of the tag map a walk builds from the empty map was
    put there by a visited node: some visited node stores exactly that
    key and value, and the value is an output of the entity decoder. *)
Theorem entries_come_from_nodes `{Platform} ns obj' k v :
  visit_all ns ∅ = inr obj' ->
  obj' !! k = Some v ->
  exists n,
    In n ns
    /\ (forall o, visitor n o = inr (<[k := v]> o))
    /\ exists s, v = he_decode s.
Proof.
  intros Hwalk Hk. rewrite visit_all_eq in Hwalk.
  destruct (existsb throws ns); [discriminate|]. injection Hwalk as <-.
  rewrite fold_stored_lookup, lookup_empty in Hk.
  destruct (last_stored k ns) as [w|] eqn:Hl; [|discriminate].
  injection Hk as ->.
  destruct (last_stored_in _ _ _ Hl) as (n & Hin & Hn).
  exists n. split; [exact Hin|]. split.
  - intros o. rewrite visitor_eq, (stores_throws _ _ Hn).
    unfold stored. rewrite Hn. reflexivity.
  - apply (stores_shape _ _ _ Hn).
Qed.

Lemma entries_come_from_nodes_witness :
  exists n,
    In n (preorder Pages.complete)
    /\ (forall o,
           @visitor (Demo.platform None true Pages.complete) n o
           = inr (<["icon" := "/favicon.png"]> o))
    /\ exists s, "/favicon.png"
                 = @he_decode (Demo.platform None true Pages.complete) s.
Proof.
  apply (@entries_come_from_nodes (Demo.platform None true Pages.complete)
           (preorder Pages.complete)
           {[ "title" := "Home"; "description" := "A page";
              "icon" := "/favicon.png" ]}).
  - vm_compute. reflexivity.
  - vm_compute. reflexivity.
Defined.

(** X9. A page cannot plant a [__proto__] entry: whatever nodes are
    visited, a map without that key has none after the walk. *)
Theorem no_proto_key `{Platform} ns (obj obj' : gmap string string) :
  visit_all ns obj = inr obj' ->
  obj !! "__proto__" = None ->
  obj' !! "__proto__" = None.
Proof.
  intros Hwalk Hobj. rewrite visit_all_eq in Hwalk.
  destruct (existsb throws ns); [discriminate|]. injection Hwalk as <-.
  rewrite fold_stored_lookup.
  destruct (last_stored "__proto__" ns) as [w|] eqn:Hl; [|exact Hobj].
  destruct (last_stored_in _ _ _ Hl) as (n & _ & Hn).
  destruct (stores_shape _ _ _ Hn) as (Hk & _). congruence.
Qed.

Lemma no_proto_key_witness :
  ({[ "title" := "Home" ]} : gmap string string) !! "__proto__" = None.
Proof.
  apply (@no_proto_key (Demo.platform None true Pages.bare)
           [Pages.meta {[ "name" := "__proto__"; "content" := "polluted" ]};
            Element "title" ∅ [Text "Home"]]
           ∅ {[ "title" := "Home" ]}).
  - vm_compute. reflexivity.
  - reflexivity.
Defined.

(** X10. When no two of the visited nodes store under the same key, the
    outcome of the walk does not depend on the order of the visit: two
    walks over the same nodes in different orders fail together or
    return the same tag map. *)
Theorem walk_order_irrelevant `{Platform} ns ns' obj :
  ns ≡ₚ ns' ->
  NoDup (stored_keys ns) ->
  visit_all ns obj = visit_all ns' obj.
Proof.
  intros Hp Hnd. rewrite !visit_all_eq, (existsb_throws_perm ns ns' Hp).
  destruct (existsb throws ns'); [reflexivity|]. f_equal.
  apply map_eq. intros k. rewrite !fold_stored_lookup.
  rewrite (last_stored_perm k ns ns' Hp Hnd). reflexivity.
Qed.

Lemma walk_order_irrelevant_witness :
  @visit_all (Demo.platform None true Pages.bare)
    [Element "title" ∅ [Text "Home"];
     Pages.link {[ "rel" := "icon"; "href" := "/favicon.ico" ]};
     Pages.meta {[ "name" := "description"; "content" := "A page" ]}] ∅
  = @visit_all (Demo.platform None true Pages.bare)
      [Pages.meta {[ "name" := "description"; "content" := "A page" ]};
       Element "title" ∅ [Text "Home"];
       Pages.link {[ "rel" := "icon"; "href" := "/favicon.ico" ]}] ∅.
Proof.
  apply (@walk_order_irrelevant (Demo.platform None true Pages.bare)).
  - apply (Permutation_cons_app [_] [_]). apply perm_swap.
  - apply (bool_decide_unpack _). vm_compute. exact I.
Defined.

(** ** When the extraction returns *)

Section Returns.

Context `{Platform}.

(** The resolver returns on this page url and raw image. *)
Lemma getRelativeUrl_returns url imageUrl :
  (exists r, getRelativeUrl url imageUrl = inr r)
  <-> truthy imageUrl = false
      \/ isValidUrl imageUrl = true
      \/ exists page r,
           URL_new url = Some page
           /\ URL_new_base (to_string imageUrl)
                (protocol page +:+ "//" +:+ host page) = Some r.
Proof.
  unfold getRelativeUrl.
  destruct (truthy imageUrl); cbn; [|split; eauto].
  destruct (isValidUrl imageUrl); [split; eauto|].
  destruct (URL_new url) as [page|].
  - destruct (URL_new_base _ _) as [r|] eqn:Hr.
    + split; [|eauto]. intros _. right. right. eauto.
    + split.
      * intros (r & Hx). discriminate.
      * intros [Hx | [Hx | (page' & r & [= <-] & Hx)]]; congruence.
  - split.
    + intros (r & Hx). discriminate.
    + intros [Hx | [Hx | (page' & r & Hx & _)]]; congruence.
Qed.

Lemma last_stored_app k l1 l2 :
  last_stored k (l1 ++ l2)
  = match last_stored k l2 with
    | Some v => Some v
    | None => last_stored k l1
    end.
Proof.
  induction l1 as [|n l1 IH]; cbn.
  - destruct (last_stored k l2); reflexivity.
  - rewrite IH. destruct (last_stored k l2); reflexivity.
Qed.

Lemma last_stored_absent k ns :
  k ∉ stored_keys ns -> last_stored k ns = None.
Proof.
  intros Hk. destruct (last_stored k ns) as [v|] eqn:Hl; [|reflexivity].
  destruct (last_stored_in _ _ _ Hl) as (n & Hin & Hn).
  exfalso. apply Hk. eapply stored_keys_in; eassumption.
Qed.

Lemma walk_get ns obj' k :
  visit_all ns ∅ = inr obj' ->
  JS.get obj' k = match last_stored k ns with
                  | Some v => JStr v
                  | None => JUndefined
                  end.
Proof.
  intros Hwalk. rewrite visit_all_eq in Hwalk.
  destruct (existsb throws ns); [discriminate|]. injection Hwalk as <-.
  unfold JS.get. rewrite fold_stored_lookup, lookup_empty.
  destruct (last_stored k ns); reflexivity.
Qed.

End Returns.

(** X11. The extraction returns exactly when the fetch succeeds, the
    walk meets no title element it throws at, and the raw image is
    empty or absent, or accepted by [isValidUrl], or resolves against the
    page's protocol and host. *)
Theorem extraction_returns_iff `{Platform} url :
  (exists tr m, getMetaTags url = (tr, inr m))
  <-> exists html obj,
        fetch_text url = inr html
        /\ Forall (fun n => throws n = false) (walk_order (parsed url html))
        /\ walk (parsed url html) = inr obj
        /\ (truthy (image_of obj) = false
            \/ isValidUrl (image_of obj) = true
            \/ exists page r,
                 URL_new url = Some page
                 /\ URL_new_base (to_string (image_of obj))
                      (protocol page +:+ "//" +:+ host page) = Some r).
Proof.
  rewrite getMetaTags_eq. split.
  - intros (tr & m & Hm).
    destruct (fetch_text url) as [e|html]; [discriminate|].
    destruct (walk (parsed url html)) as [e|obj] eqn:Hw; [discriminate|].
    cbv zeta in Hm.
    destruct (getRelativeUrl url (image_of obj)) as [e|r] eqn:Hr;
      [discriminate|].
    exists html, obj. split; [reflexivity|]. split; [|split; [exact Hw|]].
    + unfold walk in Hw. rewrite visit_all_eq in Hw.
      apply List.Forall_forall. intros n Hin.
      destruct (throws n) eqn:Hn; [|reflexivity].
      assert (Ht : existsb throws (walk_order (parsed url html)) = true)
        by (apply existsb_exists; eauto).
      rewrite Ht in Hw. discriminate.
    + apply getRelativeUrl_returns. eauto.
  - intros (html & obj & -> & _ & -> & Hres). cbv zeta.
    apply getRelativeUrl_returns in Hres as (r & ->). eauto.
Qed.

(** X12. An absolute og:image wins and is returned as it is: when the
    tag map binds og:image to a non-empty value that [isValidUrl]
    accepts, the extraction returns with that value as the image,
    whatever the other image keys hold and whatever the page url is. *)
Theorem absolute_og_image_unchanged `{Platform} url html obj v :
  fetch_text url = inr html ->
  walk (parsed url html) = inr obj ->
  obj !! "og:image" = Some v ->
  v <> "" ->
  isValidUrl (JStr v) = true ->
  getMetaTags url
  = (extraction_events url
       (missing_flag (title_of obj) (description_of obj) (JStr v)),
     inr (mkMetaTags (title_of obj) (description_of obj) (JStr v))).
Proof.
  intros Hf Hw Hv Hne Hvalid.
  assert (Ht : truthy (JStr v) = true).
  { cbn. destruct (String.eqb_spec v ""); [contradiction | reflexivity]. }
  assert (Himg : image_of obj = JStr v).
  { assert (Hg : JS.get obj "og:image" = JStr v)
      by (unfold JS.get; rewrite Hv; reflexivity).
    rewrite image_of_chain. unfold image_keys. cbn [map]. rewrite Hg.
    apply first_truthy_hit, Ht. }
  rewrite getMetaTags_eq, Hf, Hw. cbv zeta. rewrite Himg.
  unfold getRelativeUrl. rewrite Ht, Hvalid. reflexivity.
Qed.

Lemma absolute_og_image_unchanged_witness :
  @getMetaTags (Demo.platform None true Pages.empty_title) Pages.page_url
  = (extraction_events Pages.page_url true,
     inr (mkMetaTags (JStr "") (JStr "A page")
            (JStr "https://example.com/i.png"))).
Proof.
  exact (@absolute_og_image_unchanged
           (Demo.platform None true Pages.empty_title) Pages.page_url ""
           {[ "title" := ""; "description" := "A page";
              "og:image" := "https://example.com/i.png" ]}
           "https://example.com/i.png"
           ltac:(reflexivity) ltac:(vm_compute; reflexivity)
           ltac:(vm_compute; reflexivity) ltac:(discriminate)
           ltac:(reflexivity)).
Defined.

(** X13. Without an og:title and a twitter:title, the title is the
    decoded text of the title element: in a walk from the empty map
    where no visited node stores under og:title or twitter:title, and no
    node visited after a title element stores under title, the title
    field is the entity-decoded value of that element's first child. *)
Theorem title_falls_back_to_title_element `{Platform}
    pre attributes child rest post obj' t :
  visit_all (pre ++ Element "title" attributes (child :: rest) :: post) ∅
  = inr obj' ->
  node_value child = JStr t ->
  "og:title" ∉ stored_keys (pre ++ Element "title" attributes (child :: rest) :: post) ->
  "twitter:title" ∉ stored_keys (pre ++ Element "title" attributes (child :: rest) :: post) ->
  "title" ∉ stored_keys post ->
  title_of obj' = JStr (he_decode t).
Proof.
  intros Hwalk Ht Hog Htw Hpost. unfold title_of.
  rewrite !(walk_get _ _ _ Hwalk).
  rewrite (last_stored_absent _ _ Hog), (last_stored_absent _ _ Htw).
  rewrite last_stored_app. cbn [last_stored].
  rewrite (last_stored_absent _ _ Hpost). cbn. rewrite Ht. reflexivity.
Qed.

Lemma title_falls_back_to_title_element_witness :
  title_of {[ "title" := "Home"; "description" := "A page" ]}
  = JStr (@he_decode (Demo.platform None true Pages.bare) "Home").
Proof.
  apply (@title_falls_back_to_title_element
           (Demo.platform None true Pages.bare)
           [Element "head" ∅ []] ∅ (Text "Home") []
           [Pages.meta {[ "name" := "description"; "content" := "A page" ]}]).
  - vm_compute. reflexivity.
  - reflexivity.
  - apply (bool_decide_unpack _). vm_compute. exact I.
  - apply (bool_decide_unpack _). vm_compute. exact I.
  - apply (bool_decide_unpack _). vm_compute. exact I.
Defined.

(** X14. A page on which no visited node stores anything and none makes
    the callback throw (text only, say, or elements without content and
    href) is answered with no title, no description and a null image;
    the record says metadata is missing, and the JSON text is
    [{"image":null}]. *)
Theorem page_without_metadata `{Platform} url html :
  fetch_text url = inr html ->
  Forall (fun n => throws n = false /\ stores n = None)
    (walk_order (parsed url html)) ->
  getMetaTags url
  = (extraction_events url true,
     inr (mkMetaTags JUndefined JUndefined JNull))
  /\ JSON_stringify (mkMetaTags JUndefined JUndefined JNull)
     = "{" +:+ dquote +:+ "image" +:+ dquote +:+ ":null}".
Proof.
  intros Hf Hall. split; [|reflexivity].
  assert (Hw : walk (parsed url html) = inr ∅).
  { unfold walk. rewrite visit_all_eq.
    induction Hall as [|n ns (Hn & Hs) _ IH]; [reflexivity|].
    cbn. rewrite Hn. cbn. unfold stored at 2. rewrite Hs. exact IH. }
  rewrite getMetaTags_eq, Hf, Hw. reflexivity.
Qed.

Lemma page_without_metadata_witness :
  @getMetaTags (Demo.platform None true Pages.bare) Pages.page_url
  = (extraction_events Pages.page_url true,
     inr (mkMetaTags JUndefined JUndefined JNull)).
Proof.
  apply (@page_without_metadata (Demo.platform None true Pages.bare)
           Pages.page_url "" eq_refl).
  repeat constructor.
Defined.

(** X15. The path of the page plays no part in resolving an image: two
    page urls with the same protocol and host give the same result for
    every raw image value. *)
Theorem same_origin_same_image `{Platform} url1 url2 page1 page2 imageUrl :
  URL_new url1 = Some page1 ->
  URL_new url2 = Some page2 ->
  protocol page1 = protocol page2 ->
  host page1 = host page2 ->
  getRelativeUrl url1 imageUrl = getRelativeUrl url2 imageUrl.
Proof.
  intros H1 H2 Hp Hh. unfold getRelativeUrl.
  rewrite H1, H2, Hp, Hh. reflexivity.
Qed.

Lemma same_origin_same_image_witness :
  @getRelativeUrl (Demo.platform None true Pages.complete)
    "https://example.com/foo/bar" (JStr "/favicon.png")
  = @getRelativeUrl (Demo.platform None true Pages.complete)
      "https://example.com/blog/2024/post?id=1" (JStr "/favicon.png").
Proof.
  apply (@same_origin_same_image (Demo.platform None true Pages.complete)
           "https://example.com/foo/bar"
           "https://example.com/blog/2024/post?id=1"
           (mkURL "https:" "example.com" "https://example.com/foo/bar")
           (mkURL "https:" "example.com"
              "https://example.com/blog/2024/post?id=1"));
    reflexivity.
Defined.
